(** * aws-iam-generator: the resolution and assembly engine of
      [bin/iam_template_build.py]

    A shallow embedding of the template builder and the properties of its
    specification.

    Conventions of the embedding.
    - A Python 3 [str] is a [string]: a sequence of characters, each a code
      point below 256.  The regular expressions of the source are compiled
      without flags on [str] patterns, so [\w] is the Unicode class of the
      letters, the digits and the underscore (on the code points below 256:
      the ASCII ones and the letters and digits of Latin-1), and [.] is
      every character but the line feed.
    - A Python exception is a value of [error]; the code that raises returns
      in the left summand.
    - The [config] object of [lib.config_helper] is a record; its mutable
      attributes ([current_account], [template]) are threaded explicitly.
    - troposphere objects are plain data: a resource is its class, its title
      and its keyword arguments.  Of the checks of troposphere the
      embedding has the one on the title of a resource, the one on the type
      of the document of a managed policy and the one on a repeated title
      in [add_resource]; the limits on the size of a template and the check
      on a repeated output title are not part of it. *)

From Stdlib Require Import String Ascii List Bool Arith Lia.
From stdpp Require Import base option list strings gmap.

Local Open Scope string_scope.
Local Open Scope list_scope.

(** ** Characters, strings and the regular expressions of the source *)

Module Re.

Definition in_range (lo hi : nat) (ch : ascii) : bool :=
  Nat.leb lo (nat_of_ascii ch) && Nat.leb (nat_of_ascii ch) hi.

(** The letters and digits among the code points 128 to 255: the ordinal
    indicators, the superscript digits, the micro sign, the fractions and
    the accented letters. *)
Definition latin1_letter_or_digit (ch : ascii) : bool :=
  in_range 170 170 ch || in_range 178 179 ch || in_range 181 181 ch
  || in_range 185 186 ch || in_range 188 190 ch || in_range 192 214 ch
  || in_range 216 246 ch || in_range 248 255 ch.

(** [\w] on a [str] pattern without flags: a letter, a digit or the
    underscore. *)
Definition word_char (ch : ascii) : bool :=
  in_range 97 122 ch || in_range 65 90 ch || in_range 48 57 ch
  || Ascii.eqb ch "_"%char || latin1_letter_or_digit ch.

(** The class [[\W_]] of [scrub_name]. *)
Definition nonword_or_underscore (ch : ascii) : bool :=
  negb (word_char ch) || Ascii.eqb ch "_"%char.

(** The line feed, the one character that [.] does not match. *)
Definition LF : ascii := ascii_of_nat 10.

Definition dot (ch : ascii) : bool := negb (Ascii.eqb ch LF).

(** [re.sub] of the pattern [[cls]+] by [repl] in [s]: every maximal run of
    characters of [cls] is replaced by one copy of [repl].  [in_run] tells
    that the previous character belonged to the run being replaced. *)
Fixpoint sub_runs (cls : ascii -> bool) (repl : string) (in_run : bool)
         (s : string) : string :=
  match s with
  | EmptyString => EmptyString
  | String ch rest =>
      if cls ch then
        if in_run then sub_runs cls repl true rest
        else repl +:+ sub_runs cls repl true rest
      else String ch (sub_runs cls repl false rest)
  end.

Definition sub_class_plus (cls : ascii -> bool) (repl s : string) : string :=
  sub_runs cls repl false s.

(** [re.match(lit, s)] for a literal pattern [lit] (with or without a
    leading [^]): [s] starts with [lit].  On success the rest of [s] is
    returned. *)
Fixpoint match_literal (lit s : string) : option string :=
  match lit, s with
  | EmptyString, _ => Some s
  | String a lit', String b s' =>
      if Ascii.eqb a b then match_literal lit' s' else None
  | String _ _, EmptyString => None
  end.

(** The longest prefix of [s] matched by [.*]: the characters before the
    first line feed. *)
Fixpoint dot_star (s : string) : string :=
  match s with
  | EmptyString => EmptyString
  | String ch rest => if dot ch then String ch (dot_star rest) else EmptyString
  end.

(** [re.match] of the literal [lit] followed by a group that captures
    [.*], and then [group(1)]: the rest of the first line after [lit]. *)
Definition match_literal_group (lit s : string) : option string :=
  match match_literal lit s with
  | Some rest => Some (dot_star rest)
  | None => None
  end.

(** [.*?$] at the current position: characters other than the line feed
    up to the end of the string, or up to a line feed that is the last
    character of the string. *)
Fixpoint dots_then_end (s : string) : bool :=
  match s with
  | EmptyString => true
  | String ch rest =>
      if dot ch then dots_then_end rest
      else match rest with EmptyString => true | _ => false end
  end.

(** [re.match] of the pattern [^.*\..*?$]: some full stop is preceded
    only by characters that [.] matches and followed by a match of
    [.*?$]. *)
Fixpoint match_dotted (s : string) : bool :=
  match s with
  | EmptyString => false
  | String ch rest =>
      (Ascii.eqb ch "."%char && dots_then_end rest)
      || (dot ch && match_dotted rest)
  end.

(** Membership of a character in a string, and the characters kept by a
    predicate. *)
Fixpoint occurs (ch : ascii) (s : string) : bool :=
  match s with
  | EmptyString => false
  | String a rest => Ascii.eqb ch a || occurs ch rest
  end.

Fixpoint keep (p : ascii -> bool) (s : string) : string :=
  match s with
  | EmptyString => EmptyString
  | String ch rest => if p ch then String ch (keep p rest) else keep p rest
  end.

Fixpoint all_chars (p : ascii -> bool) (s : string) : bool :=
  match s with
  | EmptyString => true
  | String ch rest => p ch && all_chars p rest
  end.

End Re.

(** ** The identifier scrubber *)

(** [scrub_name(name)]: [re.sub] of the pattern [[\W_]+] by the empty
    string. *)
Definition scrub_name (name : string) : string :=
  Re.sub_class_plus Re.nonword_or_underscore EmptyString name.

(** The specification's reading of the scrubber: the characters of
    [[A-Za-z0-9]] are kept, in order, and nothing else. *)
Definition alphanumeric (ch : ascii) : bool :=
  Re.in_range 65 90 ch || Re.in_range 97 122 ch || Re.in_range 48 57 ch.

Definition scrub (x : string) : string := Re.keep alphanumeric x.

(** The characters of ASCII. *)
Definition ascii_only (ch : ascii) : bool := Nat.ltb (nat_of_ascii ch) 128.

(** The word [cafe] with an acute accent on its last letter, the code point
    233. *)
Definition cafe : string := "caf" +:+ String (ascii_of_nat 233) EmptyString.

(** ** Errors *)

(** The exceptions the engine raises.  The [ValueError]s of the source are
    told apart by their message; [UnknownAccount] is raised by
    [config.map_account], [KeyError] by a subscript on a missing key and
    [TemplateError] by [policy_document_from_jinja].  The last three are
    raised by troposphere: the [ValueError] for a title that is not
    alphanumeric, the [TypeError] for a policy document that is not a
    dictionary, and the [ValueError] for a title that a template already
    has. *)
Inductive error : Type :=
| UnresolvedTrust (trust : string)
| UnknownManagedPolicy (working_on managed_policy : string)
| PolicyNotInAccount (working_on managed_policy account : string)
| UnknownAccount (friendly_name : string)
| KeyError (key : string)
| TemplateError (policy_file cause : string)
| NotAlphanumeric (title : string)
| PolicyDocumentType (title : string)
| DuplicateKey (title : string).

Definition result (A : Type) : Type := (error + A)%type.

Definition ok {A} (x : A) : result A := inr x.
Definition raise {A} (e : error) : result A := inl e.

Definition rbind {A B} (r : result A) (k : A -> result B) : result B :=
  match r with
  | inl e => inl e
  | inr x => k x
  end.

Notation "'try' x <- r ; k" := (rbind r (fun x => k))
  (at level 10, x name, r at level 100, k at level 200).

(** ** Data model *)

(** *** Policy documents *)

Inductive principal : Type :=
| AWS (arn : string)
| Federated (arn : string)
| Service (name : string).

(** A condition block with one operator and one key. *)
Record condition : Type := {
  cond_operator : string;
  cond_key : string;
  cond_value : string
}.

Record statement : Type := {
  Effect : string;
  Principal : option principal;
  Action : string;
  Resource : option string;
  Condition : option condition
}.

Record policy : Type := {
  Version : string;
  Statement : list statement
}.

(** What [json.loads] returns for a rendered policy file.  Numbers keep
    their text. *)
Inductive json : Type :=
| JNull
| JBool (b : bool)
| JNumber (digits : string)
| JString (s : string)
| JArray (items : list json)
| JObject (members : list (string * json)).

(** The value bound to [policy_document] in the policies loop: a string
    (initially the empty one), a parsed file or a generated policy. *)
Inductive document : Type :=
| DocStr (s : string)
| DocJson (j : json)
| DocPolicy (p : policy).

(** *** troposphere values, resources and outputs *)

Inductive value : Type :=
| Str (s : string)
| ImportValue (export : string)
| Ref (logical_id : string)
| GetAtt (logical_id attribute : string).

Record login_profile : Type := {
  Password : string;
  PasswordResetRequired : bool
}.

Record managed_policy_args : Type := {
  mp_ManagedPolicyName : option string;
  mp_Description : string;
  mp_PolicyDocument : document;
  mp_Groups : list value;
  mp_Roles : list value;
  mp_Users : list value;
  mp_DeletionPolicy : option string
}.

Record instance_profile_args : Type := {
  ip_InstanceProfileName : option string;
  ip_Path : string;
  ip_Roles : list value;
  ip_DeletionPolicy : option string
}.

Record role_args : Type := {
  role_RoleName : option string;
  role_Path : string;
  role_AssumeRolePolicyDocument : policy;
  role_ManagedPolicyArns : list value;
  role_Policies : list policy;
  role_DeletionPolicy : option string
}.

Record group_args : Type := {
  group_GroupName : option string;
  group_Path : string;
  group_ManagedPolicyArns : list value;
  group_Policies : list policy;
  group_DeletionPolicy : option string
}.

Record user_args : Type := {
  user_UserName : option string;
  user_Path : string;
  user_Groups : list value;
  user_ManagedPolicyArns : list value;
  user_Policies : list policy;
  user_LoginProfile : option login_profile;
  user_DeletionPolicy : option string
}.

Inductive resource : Type :=
| ManagedPolicy (title : string) (kw_args : managed_policy_args)
| InstanceProfile (title : string) (kw_args : instance_profile_args)
| Role (title : string) (kw_args : role_args)
| Group (title : string) (kw_args : group_args)
| User (title : string) (kw_args : user_args).

(** The logical id of a resource: the title it was constructed with. *)
Definition resource_title (r : resource) : string :=
  match r with
  | ManagedPolicy title _ => title
  | InstanceProfile title _ => title
  | Role title _ => title
  | Group title _ => title
  | User title _ => title
  end.

(** [Output(title, Description=..., Value=..., Export=Export(Sub(name)))]. *)
Record Output : Type := {
  out_title : string;
  out_Description : string;
  out_Value : value;
  out_Export : string
}.

(** A troposphere [Template]: the resources and the outputs in the order in
    which they were added. *)
Record Template : Type := {
  resources : list resource;
  outputs : list Output
}.

Definition empty_template : Template := {| resources := []; outputs := [] |}.

Fixpoint mem (x : string) (l : list string) : bool :=
  match l with
  | [] => false
  | y :: rest => String.eqb x y || mem x rest
  end.

(** *** The checks of troposphere *)

(** What may follow the first character of a title for the pattern
    [^[a-zA-Z0-9]+$] of [valid_names]: ASCII letters and digits up to the
    end of the title, or up to a line feed that ends it. *)
Fixpoint valid_name_rest (s : string) : bool :=
  match s with
  | EmptyString => true
  | String ch rest =>
      if alphanumeric ch then valid_name_rest rest
      else Ascii.eqb ch Re.LF
           && match rest with EmptyString => true | _ => false end
  end.

(** [valid_names.match(title)]. *)
Definition valid_name (title : string) : bool :=
  match title with
  | EmptyString => false
  | String ch rest => alphanumeric ch && valid_name_rest rest
  end.

(** The title check of a constructor: a title that is not empty is
    validated. *)
Definition title_refused (title : string) : bool :=
  match title with
  | EmptyString => false
  | _ => negb (valid_name title)
  end.

(** The type check on the property [PolicyDocument]: a dictionary. *)
Definition is_dict (d : document) : bool :=
  match d with
  | DocPolicy _ => true
  | DocJson (JObject _) => true
  | _ => false
  end.

(** The constructor call [ManagedPolicy(title, **kw_args)],
    [Role(title, **kw_args)] and so on: the title is checked first, then
    the properties are set. *)
Definition new_resource (r : resource) : result resource :=
  if title_refused (resource_title r) then raise (NotAlphanumeric (resource_title r))
  else match r with
       | ManagedPolicy title kw =>
           if is_dict (mp_PolicyDocument kw) then ok r
           else raise (PolicyDocumentType title)
       | _ => ok r
       end.

(** [Template.add_resource]: a title the template already has is
    refused. *)
Definition add_resource (r : resource) (t : Template) : result Template :=
  if mem (resource_title r) (List.map resource_title (resources t))
  then raise (DuplicateKey (resource_title r))
  else ok {| resources := resources t ++ [r]; outputs := outputs t |}.

Definition add_output (os : list Output) (t : Template) : Template :=
  {| resources := resources t; outputs := outputs t ++ os |}.

(** *** The configuration tree *)

(** A key that may be absent from a model dictionary is an [option]. *)

Record global_names : Type := {
  names_policies : bool;
  names_roles : bool;
  names_users : bool;
  names_groups : bool
}.

Record global_section : Type := {
  names : global_names;
  template_outputs : string
}.

Record assume_model : Type := {
  assume_accounts : list string;
  assume_roles : list string
}.

Record policy_model : Type := {
  policy_file : option string;
  template_vars : option string;
  assume : option assume_model;
  policy_in_accounts : option (list string);
  policy_description : option string;
  policy_groups : option (list string);
  policy_users : option (list string);
  policy_roles : option (list string);
  policy_retain_on_delete : option bool
}.

Record role_model : Type := {
  trusts : option (list string);
  role_managed_policies : option (list string);
  role_in_accounts : option (list string);
  role_retain_on_delete : option bool
}.

Record group_model : Type := {
  group_managed_policies : option (list string);
  group_in_accounts : option (list string);
  group_retain_on_delete : option bool
}.

Record user_model : Type := {
  user_groups : option (list string);
  user_managed_policies : option (list string);
  user_password : option string;
  user_in_accounts : option (list string);
  user_retain_on_delete : option bool
}.

(** [c.config]: the sections are dictionaries in configuration order. *)
Record config_tree : Type := {
  global : global_section;
  policies : option (list (string * policy_model));
  roles : option (list (string * role_model));
  groups : option (list (string * group_model));
  users : option (list (string * user_model))
}.

(** The [config] object [c] of [lib/config_helper.py], by the attributes the
    builder reads.  [current_account] and [template] are the attributes it
    assigns to. *)
Record config : Type := {
  tree : config_tree;
  account_map_ids : list (string * string);
  parent_account_id : string;
  saml_provider : option string;
  current_account : string;
  template : gmap string Template
}.

Definition set_current_account (account : string) (c : config) : config :=
  {| tree := tree c;
     account_map_ids := account_map_ids c;
     parent_account_id := parent_account_id c;
     saml_provider := saml_provider c;
     current_account := account;
     template := template c |}.

Definition set_template (t : gmap string Template) (c : config) : config :=
  {| tree := tree c;
     account_map_ids := account_map_ids c;
     parent_account_id := parent_account_id c;
     saml_provider := saml_provider c;
     current_account := current_account c;
     template := t |}.

(** ** The configuration helper *)

(** A dictionary in configuration order, read by key. *)
Fixpoint assoc {V : Type} (k : string) (d : list (string * V)) : option V :=
  match d with
  | [] => None
  | (k', v) :: rest => if String.eqb k k' then Some v else assoc k rest
  end.

Definition has_key {V : Type} (k : string) (d : list (string * V)) : bool :=
  match assoc k d with Some _ => true | None => false end.

Definition is_all (context : list string) : bool :=
  match context with
  | [a] => String.eqb a "all"
  | _ => false
  end.

(** Modelled from the spec: [config.search_accounts] of
    [lib/config_helper.py], which is not among the sources.  The context
    [["all"]] gives every configured account in configuration order; any
    other context keeps its entries that are configured friendly names and
    silently drops the others.  The result is a list of friendly names:
    the builder uses its elements as keys of [account_map_ids] and of
    [template]. *)
Definition search_accounts (c : config) (context : list string) : list string :=
  if is_all context then List.map fst (account_map_ids c)
  else List.filter (fun name => has_key name (account_map_ids c)) context.

(** Modelled from the spec: [config.map_account] of
    [lib/config_helper.py]: the numeric identifier of a friendly name, and
    an unknown-account error when there is none. *)
Definition map_account (c : config) (friendly_name : string) : result string :=
  match assoc friendly_name (account_map_ids c) with
  | Some numeric_id => ok numeric_id
  | None => raise (UnknownAccount friendly_name)
  end.

(** [c.account_map_ids[name]]: a subscript, hence a [KeyError] on a missing
    key. *)
Definition account_map_ids_get (c : config) (name : string) : result string :=
  match assoc name (account_map_ids c) with
  | Some numeric_id => ok numeric_id
  | None => raise (KeyError name)
  end.

Definition policies_of (c : config) : list (string * policy_model) :=
  match policies (tree c) with Some d => d | None => [] end.

(** Modelled from the spec: [config.is_local_managed_policy] of
    [lib/config_helper.py]: the name is declared in the policies section of
    the configuration. *)
Definition is_local_managed_policy (c : config) (managed_policy : string) : bool :=
  has_key managed_policy (policies_of c).

(** The account context of an entity: its [in_accounts] list, and
    [["all"]] without one. *)
Definition context_of (in_accounts : option (list string)) : list string :=
  match in_accounts with
  | Some l => l
  | None => ["all"]
  end.

Fixpoint numeric_ids (c : config) (names : list string) : list string :=
  match names with
  | [] => []
  | n :: rest =>
      match assoc n (account_map_ids c) with
      | Some i => i :: numeric_ids c rest
      | None => numeric_ids c rest
      end
  end.

(** Modelled from the spec: [config.is_managed_policy_in_account] of
    [lib/config_helper.py]: the declared policy is scheduled for the account
    with the given numeric identifier, that is, the account is among those
    its context resolves to. *)
Definition is_managed_policy_in_account (c : config) (managed_policy account_id : string)
  : bool :=
  match assoc managed_policy (policies_of c) with
  | Some model =>
      mem account_id (numeric_ids c (search_accounts c (context_of (policy_in_accounts model))))
  | None => false
  end.

(** Modelled from the spec: the attribute [template] of the [config] object
    of [lib/config_helper.py], read as [c.template[account]]: one document
    per account, created the first time its account is used. *)
Definition template_of (c : config) (account : string) : Template :=
  match template c !! account with
  | Some t => t
  | None => empty_template
  end.

(** ** The trust statement builder *)

(** The body of the loop over [trusts] in [build_role_trust], with the two
    accumulators [sts_principals] and [saml_principals]. *)
Fixpoint trust_loop (c : config) (trusts : list string)
         (sts_principals saml_principals : list principal)
  : result (list principal * list principal) :=
  match trusts with
  | [] => ok (sts_principals, saml_principals)
  | trust :: rest =>
      match search_accounts c [trust] with
      | first :: _ =>
          try numeric_id <- account_map_ids_get c first;
          trust_loop c rest
            (sts_principals ++ [AWS ("arn:aws:iam::" +:+ numeric_id +:+ ":root")])
            saml_principals
      | [] =>
          match saml_provider c with
          | Some provider =>
              if String.eqb trust provider then
                trust_loop c rest sts_principals
                  (saml_principals ++
                     [Federated ("arn:aws:iam::" +:+ parent_account_id c
                                 +:+ ":saml-provider/" +:+ provider)])
              else if Re.match_dotted trust then
                trust_loop c rest (sts_principals ++ [Service trust]) saml_principals
              else raise (UnresolvedTrust trust)
          | None =>
              if Re.match_dotted trust then
                trust_loop c rest (sts_principals ++ [Service trust]) saml_principals
              else raise (UnresolvedTrust trust)
          end
      end
  end.

Definition sts_statement (sts_principal : principal) : statement :=
  {| Effect := "Allow";
     Principal := Some sts_principal;
     Action := "sts:AssumeRole";
     Resource := None;
     Condition := None |}.

Definition saml_audience : condition :=
  {| cond_operator := "StringEquals";
     cond_key := "SAML:aud";
     cond_value := "https://signin.aws.amazon.com/saml" |}.

Definition saml_statement (saml_principal : principal) : statement :=
  {| Effect := "Allow";
     Principal := Some saml_principal;
     Action := "sts:AssumeRoleWithSAML";
     Resource := None;
     Condition := Some saml_audience |}.

(** A loop that appends one statement per element to the statement list. *)
Definition append_each {A : Type} (f : A -> statement) (l : list A)
           (statements : list statement) : list statement :=
  fold_left (fun acc x => acc ++ [f x]) l statements.

Definition build_role_trust (c : config) (trusts : list string) : result policy :=
  try principals <- trust_loop c trusts [] [];
  ok {| Version := "2012-10-17";
        Statement :=
          append_each saml_statement (snd principals)
            (append_each sts_statement (fst principals) []) |}.

(** ** The assume shorthand *)

Definition build_sts_statement (account role : string) : statement :=
  {| Effect := "Allow";
     Principal := None;
     Action := "sts:AssumeRole";
     Resource := Some ("arn:aws:iam::" +:+ account +:+ ":role/" +:+ role);
     Condition := None |}.

(** The inner loop of [build_assume_role_policy_document], over the
    accounts, for one role. *)
Fixpoint assume_accounts_loop (c : config) (role : string) (accounts : list string)
         (statements : list statement) : result (list statement) :=
  match accounts with
  | [] => ok statements
  | account :: rest =>
      try numeric_id <- map_account c account;
      assume_accounts_loop c role rest (statements ++ [build_sts_statement numeric_id role])
  end.

(** The outer loop, over the roles. *)
Fixpoint assume_roles_loop (c : config) (accounts roles : list string)
         (statements : list statement) : result (list statement) :=
  match roles with
  | [] => ok statements
  | role :: rest =>
      try statements' <- assume_accounts_loop c role accounts statements;
      assume_roles_loop c accounts rest statements'
  end.

Definition build_assume_role_policy_document (c : config) (accounts roles : list string)
  : result policy :=
  try statements <- assume_roles_loop c accounts roles [];
  ok {| Version := "2012-10-17"; Statement := statements |}.

(** ** Managed-policy references and imports *)

(** The loop of [parse_managed_policies], with its accumulator
    [managed_policy_list]. *)
Fixpoint managed_policies_loop (c : config) (working_on : string)
         (managed_policies : list string) (managed_policy_list : list value)
  : result (list value) :=
  match managed_policies with
  | [] => ok managed_policy_list
  | managed_policy :: rest =>
      match Re.match_literal "arn:aws" managed_policy with
      | Some _ =>
          managed_policies_loop c working_on rest
            (managed_policy_list ++ [Str managed_policy])
      | None =>
          match Re.match_literal_group "import:" managed_policy with
          | Some group1 =>
              managed_policies_loop c working_on rest
                (managed_policy_list ++ [ImportValue group1])
          | None =>
              if is_local_managed_policy c managed_policy then
                try account_id <- map_account c (current_account c);
                if is_managed_policy_in_account c managed_policy account_id then
                  managed_policies_loop c working_on rest
                    (managed_policy_list ++ [Ref (scrub_name managed_policy)])
                else
                  raise (PolicyNotInAccount working_on managed_policy (current_account c))
              else
                raise (UnknownManagedPolicy working_on managed_policy)
          end
      end
  end.

Definition parse_managed_policies (c : config) (managed_policies : list string)
           (working_on : string) : result (list value) :=
  managed_policies_loop c working_on managed_policies [].

(** The loop of [parse_imports], with its accumulator [return_list]. *)
Fixpoint imports_loop (element_list : list string) (return_list : list value)
  : list value :=
  match element_list with
  | [] => return_list
  | element :: rest =>
      match Re.match_literal_group "import:" element with
      | Some group1 => imports_loop rest (return_list ++ [ImportValue group1])
      | None => imports_loop rest (return_list ++ [Str element])
      end
  end.

Definition parse_imports (c : config) (element_list : list string) : list value :=
  imports_loop element_list [].

(** ** A monad for the assemblers *)

(** The assemblers read the configuration, may raise, and assign to
    attributes of [c].  A computation takes the object and returns its
    outcome together with the object as it is then, also when it raises. *)
Definition M (A : Type) : Type := config -> result A * config.

Definition mret {A} (x : A) : M A := fun c => (ok x, c).

Definition mbind {A B} (m : M A) (k : A -> M B) : M B :=
  fun c =>
    match m c with
    | (inl e, c') => (inl e, c')
    | (inr x, c') => k x c'
    end.

Definition get : M config := fun c => (ok c, c).

Definition modify (f : config -> config) : M unit := fun c => (ok tt, f c).

Definition lift {A} (f : config -> result A) : M A := fun c => (f c, c).

Notation "'do' x <- m ; k" := (mbind m (fun x => k))
  (at level 10, x name, m at level 100, k at level 200).

Fixpoint for_each {A : Type} (l : list A) (body : A -> M unit) : M unit :=
  match l with
  | [] => mret tt
  | x :: rest => do _ <- body x; for_each rest body
  end.

(** [c.template[c.current_account].add_resource(r)], with the constructor
    call that makes [r]. *)
Definition register_resource (r : resource) : M unit :=
  do constructed <- lift (fun _ => new_resource r);
  do c <- get;
  do t <- lift (fun _ => add_resource constructed (template_of c (current_account c)));
  modify (fun c => set_template (<[current_account c := t]> (template c)) c).

(** [c.template[c.current_account].add_output(os)]. *)
Definition register_output (os : list Output) : M unit :=
  modify (fun c =>
    set_template
      (<[current_account c := add_output os (template_of c (current_account c))]>
         (template c)) c).

(** [c.config['global']['template_outputs'] == "enabled"]. *)
Definition outputs_enabled (c : config) : bool :=
  String.eqb (template_outputs (global (tree c))) "enabled".

(** The output block shared by the assemblers: the outputs are added when
    the flag is enabled. *)
Definition export_outputs (os : list Output) : M unit :=
  do c <- get;
  if outputs_enabled c then register_output os else mret tt.

Definition stack_prefix : string := "${AWS::StackName}-".

(** ** The resource assemblers *)

Definition opt_name (named : bool) (name : string) : option string :=
  if named then Some name else None.

(** [kw_args["DeletionPolicy"]]: set when [retain_on_delete] is [True]. *)
Definition deletion_policy (retain_on_delete : option bool) : option string :=
  match retain_on_delete with
  | Some true => Some "Retain"
  | _ => None
  end.

Definition imports_or_empty (c : config) (field : option (list string)) : list value :=
  match field with
  | Some l => parse_imports c l
  | None => []
  end.

Definition managed_policy_kw_args (c : config) (ManagedPolicyName : string)
           (PolicyDocument : document) (model : policy_model) (named : bool)
  : managed_policy_args :=
  {| mp_ManagedPolicyName := opt_name named ManagedPolicyName;
     mp_Description :=
       match policy_description model with
       | Some d => d
       | None => "Managed Policy " +:+ ManagedPolicyName
       end;
     mp_PolicyDocument := PolicyDocument;
     mp_Groups := imports_or_empty c (policy_groups model);
     mp_Roles := imports_or_empty c (policy_roles model);
     mp_Users := imports_or_empty c (policy_users model);
     mp_DeletionPolicy := deletion_policy (policy_retain_on_delete model) |}.

(** The output of a managed policy; [Description] is
    [kw_args["Description"]]. *)
Definition managed_policy_output (cfn_name Description : string) : Output :=
  {| out_title := cfn_name +:+ "PolicyArn";
     out_Description := Description +:+ " Policy Document ARN";
     out_Value := Ref cfn_name;
     out_Export := stack_prefix +:+ cfn_name +:+ "PolicyArn" |}.

Definition add_managed_policy (ManagedPolicyName : string) (PolicyDocument : document)
           (model : policy_model) (named : bool) : M unit :=
  let cfn_name := scrub_name ManagedPolicyName in
  do c <- get;
  let kw_args := managed_policy_kw_args c ManagedPolicyName PolicyDocument model named in
  do _ <- register_resource (ManagedPolicy cfn_name kw_args);
  export_outputs [managed_policy_output cfn_name (mp_Description kw_args)].

Definition instance_profile_kw_args (RoleName : string) (model : role_model)
           (named : bool) : instance_profile_args :=
  {| ip_InstanceProfileName := opt_name named RoleName;
     ip_Path := "/";
     ip_Roles := [Ref (scrub_name (RoleName +:+ "Role"))];
     ip_DeletionPolicy := deletion_policy (role_retain_on_delete model) |}.

Definition instance_profile_output (cfn_name RoleName : string) : Output :=
  {| out_title := cfn_name +:+ "Arn";
     out_Description := "Instance profile for Role " +:+ RoleName +:+ " ARN";
     out_Value := Ref cfn_name;
     out_Export := stack_prefix +:+ cfn_name +:+ "Arn" |}.

Definition create_instance_profile (RoleName : string) (model : role_model)
           (named : bool) : M unit :=
  let cfn_name := scrub_name (RoleName +:+ "InstanceProfile") in
  let kw_args := instance_profile_kw_args RoleName model named in
  do _ <- register_resource (InstanceProfile cfn_name kw_args);
  export_outputs [instance_profile_output cfn_name RoleName].

(** [parse_managed_policies] on the [managed_policies] key when the model
    has it, and the empty default otherwise. *)
Definition managed_policy_arns (c : config) (field : option (list string))
           (working_on : string) : result (list value) :=
  match field with
  | Some l => parse_managed_policies c l working_on
  | None => ok []
  end.

(** The output of a role, a group or a user: the [Arn] attribute of the
    resource. *)
Definition arn_output (cfn_name Description : string) : Output :=
  {| out_title := cfn_name +:+ "Arn";
     out_Description := Description;
     out_Value := GetAtt cfn_name "Arn";
     out_Export := stack_prefix +:+ cfn_name +:+ "Arn" |}.

Definition role_kw_args (c : config) (RoleName : string) (model : role_model)
           (named : bool) : result role_args :=
  try trust_list <-
    match trusts model with
    | Some l => ok l
    | None => raise (KeyError "trusts")
    end;
  try trust_document <- build_role_trust c trust_list;
  try arns <- managed_policy_arns c (role_managed_policies model) RoleName;
  ok {| role_RoleName := opt_name named RoleName;
        role_Path := "/";
        role_AssumeRolePolicyDocument := trust_document;
        role_ManagedPolicyArns := arns;
        role_Policies := [];
        role_DeletionPolicy := deletion_policy (role_retain_on_delete model) |}.

Definition add_role (RoleName : string) (model : role_model) (named : bool) : M unit :=
  let cfn_name := scrub_name (RoleName +:+ "Role") in
  do kw_args <- lift (fun c => role_kw_args c RoleName model named);
  do _ <- register_resource (Role cfn_name kw_args);
  export_outputs [arn_output cfn_name ("Role " +:+ RoleName +:+ " ARN")].

Definition group_kw_args (c : config) (GroupName : string) (model : group_model)
           (named : bool) : result group_args :=
  try arns <- managed_policy_arns c (group_managed_policies model) GroupName;
  ok {| group_GroupName := opt_name named GroupName;
        group_Path := "/";
        group_ManagedPolicyArns := arns;
        group_Policies := [];
        group_DeletionPolicy := deletion_policy (group_retain_on_delete model) |}.

Definition add_group (GroupName : string) (model : group_model) (named : bool) : M unit :=
  let cfn_name := scrub_name (GroupName +:+ "Group") in
  do kw_args <- lift (fun c => group_kw_args c GroupName model named);
  do _ <- register_resource (Group (scrub_name cfn_name) kw_args);
  export_outputs [arn_output cfn_name ("Group " +:+ GroupName +:+ " ARN")].

Definition user_kw_args (c : config) (UserName : string) (model : user_model)
           (named : bool) : result user_args :=
  let group_list := imports_or_empty c (user_groups model) in
  try arns <- managed_policy_arns c (user_managed_policies model) UserName;
  ok {| user_UserName := opt_name named UserName;
        user_Path := "/";
        user_Groups := group_list;
        user_ManagedPolicyArns := arns;
        user_Policies := [];
        user_LoginProfile :=
          match user_password model with
          | Some pw => Some {| Password := pw; PasswordResetRequired := true |}
          | None => None
          end;
        user_DeletionPolicy := deletion_policy (user_retain_on_delete model) |}.

Definition add_user (UserName : string) (model : user_model) (named : bool) : M unit :=
  let cfn_name := scrub_name (UserName +:+ "User") in
  do kw_args <- lift (fun c => user_kw_args c UserName model named);
  do _ <- register_resource (User cfn_name kw_args);
  export_outputs [arn_output cfn_name ("User " +:+ UserName +:+ " ARN")].

(** ** The template multiplexer *)

Section Multiplexer.

(** [policy_document_from_jinja(c, policy_name, model)] reads and renders
    the policy file and parses the result; the file system and the
    template engine are outside the engine, so the function is taken as
    given.  It raises on any failure to read, render or parse. *)
Variable policy_document_from_jinja : config -> string -> policy_model -> result json.

(** The document of a policy in the current account: the empty string,
    replaced by the rendered file when the model has [policy_file], and
    then by the assume document when the model has [assume]. *)
Definition policy_document_for (policy_name : string) (model : policy_model)
  : M document :=
  do from_file <-
    match policy_file model with
    | Some _ =>
        do j <- lift (fun c => policy_document_from_jinja c policy_name model);
        mret (DocJson j)
    | None => mret (DocStr EmptyString)
    end;
  match assume model with
  | Some a =>
      do p <- lift (fun c =>
                build_assume_role_policy_document c
                  (search_accounts c (assume_accounts a)) (assume_roles a));
      mret (DocPolicy p)
  | None => mret from_file
  end.

(** The body of the loop over the accounts of one policy. *)
Definition policy_account_step (policy_name : string) (model : policy_model)
           (account : string) : M unit :=
  do _ <- modify (set_current_account account);
  do policy_document <- policy_document_for policy_name model;
  do c <- get;
  add_managed_policy policy_name policy_document model
    (names_policies (names (global (tree c)))).

(** The body of the loop over the accounts of one role. *)
Definition role_account_step (role_name : string) (model : role_model)
           (account : string) : M unit :=
  do _ <- modify (set_current_account account);
  do c <- get;
  do _ <- add_role role_name model (names_roles (names (global (tree c))));
  do trust_list <-
    lift (fun _ => match trusts model with
                   | Some l => ok l
                   | None => raise (KeyError "trusts")
                   end);
  if mem "ec2.amazonaws.com" trust_list then
    do c' <- get;
    create_instance_profile role_name model (names_roles (names (global (tree c'))))
  else mret tt.

Definition group_account_step (group_name : string) (model : group_model)
           (account : string) : M unit :=
  do _ <- modify (set_current_account account);
  do c <- get;
  add_group group_name model (names_groups (names (global (tree c)))).

Definition user_account_step (user_name : string) (model : user_model)
           (account : string) : M unit :=
  do _ <- modify (set_current_account account);
  do c <- get;
  add_user user_name model (names_users (names (global (tree c)))).

(** One section of the configuration: for every entity, in configuration
    order, for every account its context resolves to, the step of its
    kind.  The section dictionary has one model per name, the one the
    source reads back by name inside the loop. *)
Definition fan_out {Model : Type} (section : option (list (string * Model)))
           (in_accounts : Model -> option (list string))
           (step : string -> Model -> string -> M unit) : M unit :=
  match section with
  | Some entities =>
      for_each entities (fun entity =>
        do c <- get;
        for_each (search_accounts c (context_of (in_accounts (snd entity))))
                 (step (fst entity) (snd entity)))
  | None => mret tt
  end.

(** The run, up to the writing of the files. *)
Definition build : M unit :=
  do c <- get;
  do _ <- fan_out (policies (tree c)) policy_in_accounts policy_account_step;
  do _ <- fan_out (roles (tree c)) role_in_accounts role_account_step;
  do _ <- fan_out (groups (tree c)) group_in_accounts group_account_step;
  fan_out (users (tree c)) user_in_accounts user_account_step.

End Multiplexer.

(** ** Example configurations *)

Definition default_names : global_names :=
  {| names_policies := false; names_roles := true;
     names_users := true; names_groups := true |}.

(** The [global] section the script installs when the file has none. *)
Definition default_global : global_section :=
  {| names := default_names; template_outputs := "enabled" |}.

Definition no_policy : policy_model :=
  {| policy_file := None; template_vars := None; assume := None;
     policy_in_accounts := None; policy_description := None;
     policy_groups := None; policy_users := None; policy_roles := None;
     policy_retain_on_delete := None |}.

Definition admin_role : role_model :=
  {| trusts := Some ["ec2.amazonaws.com"]; role_managed_policies := None;
     role_in_accounts := None; role_retain_on_delete := None |}.

Definition prod_tree : config_tree :=
  {| global := default_global; policies := None;
     roles := Some [("Admin", admin_role)]; groups := None; users := None |}.

(** One account [prod] with the identifier [111111111111] and one role
    [Admin] that trusts the instance service. *)
Definition prod_config : config :=
  {| tree := prod_tree;
     account_map_ids := [("prod", "111111111111")];
     parent_account_id := "111111111111";
     saml_provider := None;
     current_account := EmptyString;
     template := ∅ |}.

(** A renderer that finds no file. *)
Definition no_files (c : config) (policy_name : string) (model : policy_model)
  : result json :=
  raise (TemplateError (match policy_file model with Some f => f | None => EmptyString end)
                       "No such file or directory").

(** ** Vocabulary of the specification *)

(** The three kinds of principal a trust specifier resolves to. *)
Inductive principal_kind : Type :=
| AccountPrincipal
| SamlPrincipal
| ServicePrincipal.

Definition kind_of (p : principal) : principal_kind :=
  match p with
  | AWS _ => AccountPrincipal
  | Federated _ => SamlPrincipal
  | Service _ => ServicePrincipal
  end.

Definition kind_eqb (k1 k2 : principal_kind) : bool :=
  match k1, k2 with
  | AccountPrincipal, AccountPrincipal => true
  | SamlPrincipal, SamlPrincipal => true
  | ServicePrincipal, ServicePrincipal => true
  | _, _ => false
  end.

(** The principals of the first group (accounts and services) and of the
    second (SAML providers). *)
Definition is_sts (p : principal) : bool :=
  match p with
  | Federated _ => false
  | _ => true
  end.

Definition is_saml (p : principal) : bool := negb (is_sts p).

(** What one round of the loop of [build_role_trust] does with its
    specifier: the principal it appends, or the error it raises. *)
Definition resolve_trust (c : config) (trust : string) : result principal :=
  match search_accounts c [trust] with
  | first :: _ =>
      try numeric_id <- account_map_ids_get c first;
      ok (AWS ("arn:aws:iam::" +:+ numeric_id +:+ ":root"))
  | [] =>
      if match saml_provider c with
         | Some provider => String.eqb trust provider
         | None => false
         end
      then ok (Federated ("arn:aws:iam::" +:+ parent_account_id c +:+ ":saml-provider/"
                          +:+ trust))
      else if Re.match_dotted trust then ok (Service trust)
      else raise (UnresolvedTrust trust)
  end.

Fixpoint resolve_trusts (c : config) (trusts : list string) : result (list principal) :=
  match trusts with
  | [] => ok []
  | trust :: rest =>
      try p <- resolve_trust c trust;
      try ps <- resolve_trusts c rest;
      ok (p :: ps)
  end.

(** The kind of a specifier, when the builder accepts it. *)
Definition trust_kind (c : config) (trust : string) : option principal_kind :=
  match resolve_trust c trust with
  | inr p => Some (kind_of p)
  | inl _ => None
  end.


(** The kind of a specifier in the words of the specification, first match
    first: a configured friendly name, the name of the SAML provider, a
    name with a full stop. *)
Definition spec_kind (c : config) (trust : string) : option principal_kind :=
  if has_key trust (account_map_ids c) then Some AccountPrincipal
  else if match saml_provider c with
          | Some provider => String.eqb trust provider
          | None => false
          end
       then Some SamlPrincipal
  else if Re.occurs "."%char trust then Some ServicePrincipal
  else None.

(** The number of specifiers of a kind, in that reading. *)
Definition count_spec_kind (c : config) (k : principal_kind) (trusts : list string)
  : nat :=
  length (List.filter
            (fun trust => match spec_kind c trust with
                          | Some k' => kind_eqb k' k
                          | None => false
                          end) trusts).

(** A configuration with a SAML provider, for the examples. *)
Definition saml_config : config :=
  {| tree := prod_tree;
     account_map_ids := [("prod", "111111111111"); ("dev", "222222222222")];
     parent_account_id := "111111111111";
     saml_provider := Some "corp-idp";
     current_account := "prod";
     template := ∅ |}.

(** [s] begins with [lit]. *)
Definition starts_with (lit s : string) : Prop := exists rest, s = lit +:+ rest.

(** What one round of the loop of [parse_managed_policies] does with its
    reference: the value it appends, or the error it raises. *)
Definition resolve_ref (c : config) (working_on managed_policy : string) : result value :=
  match Re.match_literal "arn:aws" managed_policy with
  | Some _ => ok (Str managed_policy)
  | None =>
      match Re.match_literal_group "import:" managed_policy with
      | Some group1 => ok (ImportValue group1)
      | None =>
          if is_local_managed_policy c managed_policy then
            try account_id <- map_account c (current_account c);
            if is_managed_policy_in_account c managed_policy account_id
            then ok (Ref (scrub_name managed_policy))
            else raise (PolicyNotInAccount working_on managed_policy (current_account c))
          else raise (UnknownManagedPolicy working_on managed_policy)
      end
  end.

Fixpoint map_result {A B : Type} (f : A -> result B) (l : list A) : result (list B) :=
  match l with
  | [] => ok []
  | x :: rest =>
      try y <- f x;
      try ys <- map_result f rest;
      ok (y :: ys)
  end.

(** [line] is [s] up to its first line feed, and all of [s] when [s] has
    none. *)
Definition first_line (s line : string) : Prop :=
  Re.occurs Re.LF line = false
  /\ (s = line \/ exists tail, s = line +:+ String Re.LF tail).

(** The resolution of a managed-policy reference, first match first: a
    literal, an import of the first line of what follows the prefix, or a
    local reference to a policy that is declared and scheduled for the
    current account. *)
Inductive resolves_ref (c : config) : string -> value -> Prop :=
| resolves_literal (ref : string) :
    starts_with "arn:aws" ref ->
    resolves_ref c ref (Str ref)
| resolves_import (rest line : string) :
    first_line rest line ->
    resolves_ref c ("import:" +:+ rest) (ImportValue line)
| resolves_local (ref account_id : string) :
    ~ starts_with "arn:aws" ref ->
    ~ starts_with "import:" ref ->
    is_local_managed_policy c ref = true ->
    map_account c (current_account c) = ok account_id ->
    is_managed_policy_in_account c ref account_id = true ->
    resolves_ref c ref (Ref (scrub_name ref)).

(** The two ways a reference is refused: it is declared nowhere, or it is
    declared but not scheduled for the current account. *)
Inductive rejects_ref (c : config) (owner : string) : string -> error -> Prop :=
| rejects_unknown (ref : string) :
    ~ starts_with "arn:aws" ref ->
    ~ starts_with "import:" ref ->
    is_local_managed_policy c ref = false ->
    rejects_ref c owner ref (UnknownManagedPolicy owner ref)
| rejects_not_in_account (ref account_id : string) :
    ~ starts_with "arn:aws" ref ->
    ~ starts_with "import:" ref ->
    is_local_managed_policy c ref = true ->
    map_account c (current_account c) = ok account_id ->
    is_managed_policy_in_account c ref account_id = false ->
    rejects_ref c owner ref (PolicyNotInAccount owner ref (current_account c)).

(** The expansion of an import reference in a membership list: an entry
    made of the import prefix and an export name without a line feed
    becomes a reference to that export, and an entry that does not begin
    with the prefix is kept as it is.  Nothing is said of an import entry
    with a line feed. *)
Definition expands_entry (entry : string) (v : value) : Prop :=
  (forall export : string,
      entry = "import:" +:+ export ->
      Re.occurs Re.LF export = false ->
      v = ImportValue export)
  /\ (~ starts_with "import:" entry -> v = Str entry).

Definition expand_import (entry : string) : value :=
  match Re.match_literal_group "import:" entry with
  | Some group1 => ImportValue group1
  | None => Str entry
  end.

Definition member_list (field : option (list string)) : list string :=
  match field with
  | Some l => l
  | None => []
  end.

(** A configuration with two policies: [ReadOnly] goes to every account,
    [Billing] to the account [dev] only. *)
Definition policies_tree : config_tree :=
  {| global := default_global;
     policies := Some [ ("ReadOnly", no_policy);
                        ("Billing",
                         {| policy_file := None; template_vars := None; assume := None;
                            policy_in_accounts := Some ["dev"];
                            policy_description := None; policy_groups := None;
                            policy_users := None; policy_roles := None;
                            policy_retain_on_delete := None |}) ];
     roles := None; groups := None; users := None |}.

Definition policies_config : config :=
  {| tree := policies_tree;
     account_map_ids := [("prod", "111111111111"); ("dev", "222222222222")];
     parent_account_id := "111111111111";
     saml_provider := None;
     current_account := "prod";
     template := ∅ |}.

(** The checks a resource passes on its way into the document of the
    current account: those of its constructor, then that of
    [add_resource]. *)
Definition library_check (c : config) (r : resource) : result unit :=
  try constructed <- new_resource r;
  try t <- add_resource constructed (template_of c (current_account c));
  ok tt.

(** The object after a resource and its outputs were added to the document
    of the current account. *)
Definition registered (c : config) (r : resource) (os : list Output) : config :=
  set_template
    (<[current_account c :=
         {| resources := resources (template_of c (current_account c)) ++ [r];
            outputs := outputs (template_of c (current_account c))
                       ++ (if outputs_enabled c then os else []) |}]>
       (template c)) c.

(** A call of one of the five resource assemblers. *)
Inductive assembler_call : Type :=
| Call_add_managed_policy (ManagedPolicyName : string) (PolicyDocument : document)
                          (model : policy_model) (named : bool)
| Call_create_instance_profile (RoleName : string) (model : role_model) (named : bool)
| Call_add_role (RoleName : string) (model : role_model) (named : bool)
| Call_add_group (GroupName : string) (model : group_model) (named : bool)
| Call_add_user (UserName : string) (model : user_model) (named : bool).

Definition run_call (call : assembler_call) : M unit :=
  match call with
  | Call_add_managed_policy name doc model named => add_managed_policy name doc model named
  | Call_create_instance_profile name model named => create_instance_profile name model named
  | Call_add_role name model named => add_role name model named
  | Call_add_group name model named => add_group name model named
  | Call_add_user name model named => add_user name model named
  end.

(** The scrubbed identifier of the resource of a call: the entity name, with
    the suffix of its type except for policies, scrubbed. *)
Definition identifier_of (call : assembler_call) : string :=
  match call with
  | Call_add_managed_policy name _ _ _ => scrub_name name
  | Call_create_instance_profile name _ _ => scrub_name (name +:+ "InstanceProfile")
  | Call_add_role name _ _ => scrub_name (name +:+ "Role")
  | Call_add_group name _ _ => scrub_name (name +:+ "Group")
  | Call_add_user name _ _ => scrub_name (name +:+ "User")
  end.

(** The suffix of the export name of a call. *)
Definition export_suffix (call : assembler_call) : string :=
  match call with
  | Call_add_managed_policy _ _ _ _ => "PolicyArn"
  | _ => "Arn"
  end.

(** A computation that either raises and leaves the object as it was, or
    registers one resource, with one output under the given export name, in
    the document of the current account. *)
Definition assembles (m : M unit) (export_name : string) : Prop :=
  forall c : config,
    (exists e, m c = (raise e, c))
    \/ (exists r o, m c = (ok tt, registered c r [o]) /\ out_Export o = export_name).

(** A policy whose role membership names an export of another template. *)
Definition importing_policy : policy_model :=
  {| policy_file := None; template_vars := None; assume := None;
     policy_in_accounts := None; policy_description := None;
     policy_groups := Some ["Developers"]; policy_users := None;
     policy_roles := Some ["import:SharedRole"];
     policy_retain_on_delete := None |}.

(** A policy given by the assume shorthand. *)
Definition assume_admin : policy_model :=
  {| policy_file := None; template_vars := None;
     assume := Some {| assume_accounts := ["prod"]; assume_roles := ["Admin"] |};
     policy_in_accounts := None; policy_description := None;
     policy_groups := None; policy_users := None; policy_roles := None;
     policy_retain_on_delete := None |}.

(** The document of a policy as a function of the object it reads. *)
Definition policy_document_of
           (render : config -> string -> policy_model -> result json)
           (policy_name : string) (model : policy_model) (c : config) : result document :=
  try from_file <-
    match policy_file model with
    | Some _ => try j <- render c policy_name model; ok (DocJson j)
    | None => ok (DocStr EmptyString)
    end;
  match assume model with
  | Some a =>
      try p <- build_assume_role_policy_document c
                 (search_accounts c (assume_accounts a)) (assume_roles a);
      ok (DocPolicy p)
  | None => ok from_file
  end.

(** A renderer that returns an empty object for every file. *)
Definition empty_object (c : config) (policy_name : string) (model : policy_model)
  : result json :=
  ok (JObject []).

(** A policy with both a file and the assume shorthand. *)
Definition file_and_assume : policy_model :=
  {| policy_file := Some "admin.j2"; template_vars := None;
     assume := Some {| assume_accounts := ["prod"; "dev"]; assume_roles := ["Admin"] |};
     policy_in_accounts := None; policy_description := None;
     policy_groups := None; policy_users := None; policy_roles := None;
     policy_retain_on_delete := None |}.

(** ** Readings of resources and runs *)

(** The explicit name of a resource, when its keyword arguments have one. *)
Definition resource_name (r : resource) : option string :=
  match r with
  | ManagedPolicy _ kw => mp_ManagedPolicyName kw
  | InstanceProfile _ kw => ip_InstanceProfileName kw
  | Role _ kw => role_RoleName kw
  | Group _ kw => group_GroupName kw
  | User _ kw => user_UserName kw
  end.

Definition resource_deletion_policy (r : resource) : option string :=
  match r with
  | ManagedPolicy _ kw => mp_DeletionPolicy kw
  | InstanceProfile _ kw => ip_DeletionPolicy kw
  | Role _ kw => role_DeletionPolicy kw
  | Group _ kw => group_DeletionPolicy kw
  | User _ kw => user_DeletionPolicy kw
  end.

(** The logical id an output value points at. *)
Definition value_target (v : value) : option string :=
  match v with
  | Ref logical_id => Some logical_id
  | GetAtt logical_id _ => Some logical_id
  | _ => None
  end.

(** The entity name, the naming flag and the retention key of a call. *)
Definition entity_name_of (call : assembler_call) : string :=
  match call with
  | Call_add_managed_policy name _ _ _ => name
  | Call_create_instance_profile name _ _ => name
  | Call_add_role name _ _ => name
  | Call_add_group name _ _ => name
  | Call_add_user name _ _ => name
  end.

Definition named_of (call : assembler_call) : bool :=
  match call with
  | Call_add_managed_policy _ _ _ named => named
  | Call_create_instance_profile _ _ named => named
  | Call_add_role _ _ named => named
  | Call_add_group _ _ named => named
  | Call_add_user _ _ named => named
  end.

Definition retain_on_delete_of (call : assembler_call) : option bool :=
  match call with
  | Call_add_managed_policy _ _ model _ => policy_retain_on_delete model
  | Call_create_instance_profile _ model _ => role_retain_on_delete model
  | Call_add_role _ model _ => role_retain_on_delete model
  | Call_add_group _ model _ => group_retain_on_delete model
  | Call_add_user _ model _ => user_retain_on_delete model
  end.

(** From [c] to [c'] the configuration is the same and every document has
    only received resources and outputs at its end: as many outputs as
    resources when the outputs are enabled, and no output otherwise. *)
Definition grows (c c' : config) : Prop :=
  tree c' = tree c
  /\ account_map_ids c' = account_map_ids c
  /\ parent_account_id c' = parent_account_id c
  /\ saml_provider c' = saml_provider c
  /\ forall account : string,
       exists (rs : list resource) (os : list Output),
         resources (template_of c' account) = resources (template_of c account) ++ rs
         /\ outputs (template_of c' account) = outputs (template_of c account) ++ os
         /\ length os = if outputs_enabled c then length rs else 0.

(** The documents of the accounts that are not configured are the same in
    [c] and [c']. *)
Definition spares_unconfigured (c c' : config) : Prop :=
  forall account : string,
    has_key account (account_map_ids c) = false ->
    template c' !! account = template c !! account.

(** The two invariants of the run, taken together. *)
Definition run_invariant (c c' : config) : Prop :=
  grows c c' /\ spares_unconfigured c c'.

(** What the step of an entity in an account leaves behind: the object with
    that current account, and zero, one or two resources registered there. *)
Inductive step_result (account : string) (c : config) : config -> Prop :=
| step_raised :
    step_result account c (set_current_account account c)
| step_one (r : resource) (o : Output) :
    step_result account c (registered (set_current_account account c) r [o])
| step_two (r r' : resource) (o o' : Output) :
    step_result account c
      (registered (registered (set_current_account account c) r [o]) r' [o']).

(** A user with a password, a group and a managed policy. *)
Definition alice : user_model :=
  {| user_groups := Some ["Developers"; "import:SharedGroup"];
     user_managed_policies := Some ["ReadOnly"];
     user_password := Some "changeme";
     user_in_accounts := None;
     user_retain_on_delete := Some true |}.

(** A configuration with policies, a role, and users in chosen accounts. *)
Definition full_tree : config_tree :=
  {| global := default_global;
     policies := Some [ ("ReadOnly", assume_admin); ("AssumeAdmin", assume_admin) ];
     roles := Some [ ("Admin", admin_role) ];
     groups := Some [ ("Developers",
                       {| group_managed_policies := Some ["ReadOnly"];
                          group_in_accounts := Some ["dev"; "staging"];
                          group_retain_on_delete := None |}) ];
     users := Some [ ("alice", alice) ] |}.

Definition full_config : config :=
  {| tree := full_tree;
     account_map_ids := [("prod", "111111111111"); ("dev", "222222222222")];
     parent_account_id := "111111111111";
     saml_provider := Some "corp-idp";
     current_account := EmptyString;
     template := ∅ |}.

(** * Properties *)

(** ** The identifier scrubber *)

Lemma nonword_or_underscore_ascii (ch : ascii) :
  ascii_only ch = true -> Re.nonword_or_underscore ch = negb (alphanumeric ch).
Proof.
  destruct ch as [[] [] [] [] [] [] [] []]; intros H; try reflexivity;
    discriminate H.
Qed.

Lemma alphanumeric_not_removed (ch : ascii) :
  alphanumeric ch = true -> Re.nonword_or_underscore ch = false.
Proof.
  destruct ch as [[] [] [] [] [] [] [] []]; intros H; try reflexivity;
    discriminate H.
Qed.

(** Replacing the runs of a class by nothing keeps the other characters. *)
Lemma sub_runs_empty (cls : ascii -> bool) (s : string) (in_run : bool) :
  Re.sub_runs cls EmptyString in_run s = Re.keep (fun ch => negb (cls ch)) s.
Proof.
  revert in_run; induction s as [|ch rest IH]; intros in_run; simpl.
  - reflexivity.
  - destruct (cls ch); simpl.
    + destruct in_run; apply IH.
    + f_equal; apply IH.
Qed.

Lemma keep_ext (p q : ascii -> bool) (s : string) :
  (forall ch, p ch = q ch) -> Re.keep p s = Re.keep q s.
Proof.
  intros Hpq; induction s as [|ch rest IH]; simpl.
  - reflexivity.
  - rewrite Hpq, IH; reflexivity.
Qed.

(** Two predicates that agree on the characters of a string keep the same
    characters of it. *)
Lemma keep_ext_on (r p q : ascii -> bool) (s : string) :
  (forall ch, r ch = true -> p ch = q ch) ->
  Re.all_chars r s = true -> Re.keep p s = Re.keep q s.
Proof.
  intros Hpq; induction s as [|ch rest IH]; simpl; [reflexivity|].
  destruct (r ch) eqn:Hr; simpl; [|discriminate].
  intros Hrest; rewrite (Hpq ch Hr), (IH Hrest); reflexivity.
Qed.

(** The scrubber keeps the characters outside the class of its pattern. *)
Lemma scrub_name_keep (x : string) :
  scrub_name x = Re.keep (fun ch => negb (Re.nonword_or_underscore ch)) x.
Proof. unfold scrub_name, Re.sub_class_plus; apply sub_runs_empty. Qed.

(** On an ASCII name the scrubber keeps the characters of [[A-Za-z0-9]] and
    nothing else. *)
Lemma scrub_name_ascii (x : string) :
  Re.all_chars ascii_only x = true -> scrub_name x = scrub x.
Proof.
  intros Hascii; rewrite scrub_name_keep; unfold scrub.
  apply (keep_ext_on ascii_only); [|exact Hascii].
  intros ch Hch; rewrite (nonword_or_underscore_ascii ch Hch).
  apply negb_involutive.
Qed.

Lemma all_chars_keep (p : ascii -> bool) (s : string) :
  Re.all_chars p (Re.keep p s) = true.
Proof.
  induction s as [|ch rest IH]; simpl.
  - reflexivity.
  - destruct (p ch) eqn:Hp; simpl.
    + rewrite Hp, IH; reflexivity.
    + exact IH.
Qed.

Lemma keep_all_chars (p : ascii -> bool) (s : string) :
  Re.all_chars p s = true -> Re.keep p s = s.
Proof.
  induction s as [|ch rest IH]; simpl.
  - reflexivity.
  - destruct (p ch); simpl; [intros H; f_equal; auto | discriminate].
Qed.

Lemma all_chars_impl (p q : ascii -> bool) (s : string) :
  (forall ch, p ch = true -> q ch = true) ->
  Re.all_chars p s = true -> Re.all_chars q s = true.
Proof.
  intros Hpq; induction s as [|ch rest IH]; simpl; [reflexivity|].
  destruct (p ch) eqn:Hp; simpl; [|discriminate].
  intros Hrest; rewrite (Hpq ch Hp), (IH Hrest); reflexivity.
Qed.

Lemma scrub_name_idempotent (x : string) : scrub_name (scrub_name x) = scrub_name x.
Proof.
  rewrite !scrub_name_keep.
  apply keep_all_chars, all_chars_keep.
Qed.

(** C8.  The scrubber leaves the accented letter of [cafe] in place, though
    it is no character of [[A-Za-z0-9]]: the class [\W] of a [str] pattern
    without flags follows Unicode, for which the letter is a word
    character.  The scrubber of the specification removes it. *)
Theorem scrub_name_keeps_accented_letter :
  alphanumeric (ascii_of_nat 233) = false
  /\ scrub_name cafe = cafe
  /\ scrub cafe = "caf".
Proof. repeat split. Qed.

(** ** The trust statement builder *)

Lemma append_each_map {A : Type} (f : A -> statement) (l : list A)
      (statements : list statement) :
  append_each f l statements = statements ++ List.map f l.
Proof.
  unfold append_each; revert statements.
  induction l as [|x l IH]; intros statements; simpl.
  - now rewrite app_nil_r.
  - rewrite IH, <- app_assoc; reflexivity.
Qed.

(** The loop splits the principals of its specifiers, in order, between its
    two accumulators, and stops at the first specifier that resolves to
    nothing. *)
Lemma trust_loop_resolve (c : config) (trusts : list string) :
  forall sts saml,
    trust_loop c trusts sts saml =
    try ps <- resolve_trusts c trusts;
    ok (sts ++ List.filter is_sts ps, saml ++ List.filter is_saml ps).
Proof.
  induction trusts as [|trust rest IH]; intros sts saml; simpl.
  - now rewrite !app_nil_r.
  - unfold resolve_trust.
    destruct (search_accounts c [trust]) as [|first others].
    + destruct (saml_provider c) as [provider|].
      * destruct (String.eqb trust provider) eqn:Heq.
        -- apply String.eqb_eq in Heq; subst provider.
           rewrite IH; simpl.
           destruct (resolve_trusts c rest); simpl; [reflexivity|].
           now rewrite <- !app_assoc.
        -- destruct (Re.match_dotted trust); simpl; [|reflexivity].
           rewrite IH.
           destruct (resolve_trusts c rest); simpl; [reflexivity|].
           now rewrite <- !app_assoc.
      * destruct (Re.match_dotted trust); simpl; [|reflexivity].
        rewrite IH.
        destruct (resolve_trusts c rest); simpl; [reflexivity|].
        now rewrite <- !app_assoc.
    + destruct (account_map_ids_get c first); simpl; [reflexivity|].
      rewrite IH.
      destruct (resolve_trusts c rest); simpl; [reflexivity|].
      now rewrite <- !app_assoc.
Qed.


Lemma build_role_trust_resolve (c : config) (trusts : list string) :
  build_role_trust c trusts =
  try ps <- resolve_trusts c trusts;
  ok {| Version := "2012-10-17";
        Statement := List.map sts_statement (List.filter is_sts ps)
                     ++ List.map saml_statement (List.filter is_saml ps) |}.
Proof.
  unfold build_role_trust.
  rewrite trust_loop_resolve.
  destruct (resolve_trusts c trusts) as [e|ps]; simpl; [reflexivity|].
  now rewrite !append_each_map.
Qed.




(** C2.  The builder accepts the list of the one specifier [all] and
    returns a document with one statement, though the list holds no account
    specifier, no service specifier and no SAML specifier: [all] is no
    friendly name of [prod_config], there is no SAML provider, and [all]
    has no full stop. *)
Theorem build_role_trust_counts_all :
  count_spec_kind prod_config AccountPrincipal ["all"]
  + count_spec_kind prod_config ServicePrincipal ["all"]
  + count_spec_kind prod_config SamlPrincipal ["all"] = 0
  /\ exists doc : policy,
       build_role_trust prod_config ["all"] = ok doc
       /\ length (Statement doc) = 1.
Proof. split; [reflexivity|eexists; split; reflexivity]. Qed.

Example build_role_trust_mixed :
  build_role_trust saml_config ["corp-idp"; "ec2.amazonaws.com"; "dev"] =
  ok {| Version := "2012-10-17";
        Statement :=
          [ sts_statement (Service "ec2.amazonaws.com");
            sts_statement (AWS "arn:aws:iam::222222222222:root");
            saml_statement
              (Federated "arn:aws:iam::111111111111:saml-provider/corp-idp") ] |}.
Proof. reflexivity. Qed.

(** *** Classification of one specifier *)

Lemma has_key_assoc {V : Type} (k : string) (d : list (string * V)) :
  has_key k d = true <-> exists v, assoc k d = Some v.
Proof.
  unfold has_key; destruct (assoc k d) as [v|]; split; intros H.
  - now exists v.
  - reflexivity.
  - discriminate.
  - destruct H as [v Hv]; discriminate.
Qed.




Lemma dots_then_end_single_line (s : string) :
  Re.occurs Re.LF s = false -> Re.dots_then_end s = true.
Proof.
  induction s as [|ch rest IH]; cbn [Re.occurs Re.dots_then_end]; [reflexivity|].
  unfold Re.dot; rewrite (Ascii.eqb_sym ch Re.LF).
  destruct (Ascii.eqb Re.LF ch); cbn [orb negb]; [intros H; discriminate H|exact IH].
Qed.

(** On a specifier without a line feed the pattern of the builder tells
    whether there is a full stop. *)
Lemma match_dotted_single_line (s : string) :
  Re.occurs Re.LF s = false -> Re.match_dotted s = Re.occurs "."%char s.
Proof.
  induction s as [|ch rest IH]; cbn [Re.occurs Re.match_dotted]; [reflexivity|].
  unfold Re.dot; rewrite (Ascii.eqb_sym ch Re.LF).
  destruct (Ascii.eqb Re.LF ch) eqn:HLF; cbn [orb negb andb];
    [intros H; discriminate H|].
  intros Hrest.
  rewrite (dots_then_end_single_line rest Hrest), (IH Hrest), andb_true_r.
  rewrite (Ascii.eqb_sym ch "."%char); reflexivity.
Qed.

(** C3.  The specifier [all] is no friendly name of [prod_config], there is
    no SAML provider and the specifier has no full stop; yet the builder
    accepts it, as the principal of the first configured account, because
    the account search treats the one-element context [all] as the list of
    every account. *)
Theorem build_role_trust_all_is_first_account :
  has_key "all" (account_map_ids prod_config) = false
  /\ saml_provider prod_config = None
  /\ Re.occurs "."%char "all" = false
  /\ build_role_trust prod_config ["all"] =
     ok {| Version := "2012-10-17";
           Statement := [ sts_statement (AWS "arn:aws:iam::111111111111:root") ] |}.
Proof. repeat split. Qed.

(** A dotted specifier that spans two lines is not taken for a service. *)
Example build_role_trust_two_lines :
  Re.occurs "."%char ("a.b" +:+ String Re.LF "c") = true
  /\ build_role_trust prod_config ["a.b" +:+ String Re.LF "c"] =
     raise (UnresolvedTrust ("a.b" +:+ String Re.LF "c")).
Proof. split; reflexivity. Qed.







(** ** The assume shorthand *)

Lemma configured_ids (c : config) (accounts : list string) :
  Forall (fun a => has_key a (account_map_ids c) = true) accounts ->
  exists ids, Forall2 (fun a i => assoc a (account_map_ids c) = Some i) accounts ids.
Proof.
  induction 1 as [|a rest Ha _ [ids IH]].
  - exists []; constructor.
  - apply has_key_assoc in Ha as [i Hi].
    exists (i :: ids); now constructor.
Qed.

Lemma assume_accounts_loop_ids (c : config) (role : string)
      (accounts ids : list string) :
  Forall2 (fun a i => assoc a (account_map_ids c) = Some i) accounts ids ->
  forall statements,
    assume_accounts_loop c role accounts statements =
    ok (statements ++ List.map (fun i => build_sts_statement i role) ids).
Proof.
  induction 1 as [|a i rest ids' Hi _ IH]; intros statements; simpl.
  - now rewrite app_nil_r.
  - unfold map_account; rewrite Hi; simpl.
    rewrite IH, <- app_assoc; reflexivity.
Qed.

Lemma assume_roles_loop_ids (c : config) (accounts ids roles : list string) :
  Forall2 (fun a i => assoc a (account_map_ids c) = Some i) accounts ids ->
  forall statements,
    assume_roles_loop c accounts roles statements =
    ok (statements
        ++ List.flat_map
             (fun role => List.map (fun i => build_sts_statement i role) ids) roles).
Proof.
  intros Hids; induction roles as [|role rest IH]; intros statements; simpl.
  - now rewrite app_nil_r.
  - rewrite (assume_accounts_loop_ids c role accounts ids Hids); simpl.
    rewrite IH, <- app_assoc; reflexivity.
Qed.

Lemma length_cross {A B C : Type} (f : A -> B -> C) (xs : list A) (ys : list B) :
  length (List.flat_map (fun y => List.map (fun x => f x y) xs) ys)
  = length xs * length ys.
Proof.
  induction ys as [|y ys IH]; simpl; [lia|].
  rewrite length_app, length_map, IH; lia.
Qed.

(** The document of the assume shorthand for configured accounts: the roles
    in the outer loop, the accounts in the inner one. *)
Lemma build_assume_role_policy_document_ids
      (c : config) (accounts ids roles : list string) :
  Forall2 (fun a i => assoc a (account_map_ids c) = Some i) accounts ids ->
  build_assume_role_policy_document c accounts roles =
  ok {| Version := "2012-10-17";
        Statement :=
          List.flat_map
            (fun role => List.map (fun i => build_sts_statement i role) ids) roles |}.
Proof.
  intros Hids; unfold build_assume_role_policy_document.
  rewrite (assume_roles_loop_ids c accounts ids roles Hids); reflexivity.
Qed.

(** C4.  For accounts that are all configured, and any roles, the assume
    document has one statement per pair of an account and a role: an
    [Allow] of [sts:AssumeRole] on the role of that name in the account of
    that numeric identifier; there are as many statements as pairs.  With
    the account [prod] of identifier [111111111111] and the role [Admin]
    the document has the single statement on
    [arn:aws:iam::111111111111:role/Admin]. *)
Theorem build_assume_role_policy_document_cross_product
        (c : config) (accounts roles : list string)
        (Hresolved : Forall (fun a => has_key a (account_map_ids c) = true) accounts) :
  (exists (ids : list string) (doc : policy),
      Forall2 (fun a i => assoc a (account_map_ids c) = Some i) accounts ids
      /\ build_assume_role_policy_document c accounts roles = ok doc
      /\ Statement doc =
         List.flat_map
           (fun role =>
              List.map
                (fun i => {| Effect := "Allow";
                             Principal := None;
                             Action := "sts:AssumeRole";
                             Resource := Some ("arn:aws:iam::" +:+ i +:+ ":role/" +:+ role);
                             Condition := None |}) ids) roles
      /\ length (Statement doc) = length accounts * length roles)
  /\ build_assume_role_policy_document
       prod_config (search_accounts prod_config ["prod"]) ["Admin"] =
     ok {| Version := "2012-10-17";
           Statement :=
             [ {| Effect := "Allow";
                  Principal := None;
                  Action := "sts:AssumeRole";
                  Resource := Some "arn:aws:iam::111111111111:role/Admin";
                  Condition := None |} ] |}.
Proof.
  split; [|reflexivity].
  destruct (configured_ids c accounts Hresolved) as [ids Hids].
  eexists ids, _; split; [exact Hids|split].
  - apply (build_assume_role_policy_document_ids c accounts ids roles Hids).
  - split; [reflexivity|].
    simpl; rewrite length_cross.
    now rewrite (Forall2_length _ _ _ Hids).
Qed.

Lemma build_assume_role_policy_document_cross_product_witness :
  (exists (ids : list string) (doc : policy),
      Forall2 (fun a i => assoc a (account_map_ids saml_config) = Some i)
              ["prod"; "dev"] ids
      /\ build_assume_role_policy_document saml_config ["prod"; "dev"]
                                           ["Admin"; "ReadOnly"] = ok doc
      /\ Statement doc =
         List.flat_map
           (fun role =>
              List.map
                (fun i => {| Effect := "Allow";
                             Principal := None;
                             Action := "sts:AssumeRole";
                             Resource := Some ("arn:aws:iam::" +:+ i +:+ ":role/" +:+ role);
                             Condition := None |}) ids) ["Admin"; "ReadOnly"]
      /\ length (Statement doc) = length ["prod"; "dev"] * length ["Admin"; "ReadOnly"])
  /\ build_assume_role_policy_document
       prod_config (search_accounts prod_config ["prod"]) ["Admin"] =
     ok {| Version := "2012-10-17";
           Statement :=
             [ {| Effect := "Allow";
                  Principal := None;
                  Action := "sts:AssumeRole";
                  Resource := Some "arn:aws:iam::111111111111:role/Admin";
                  Condition := None |} ] |}.
Proof.
  apply (build_assume_role_policy_document_cross_product
           saml_config ["prod"; "dev"] ["Admin"; "ReadOnly"]).
  repeat constructor.
Defined.

(** ** Managed-policy references *)

Lemma match_literal_append (lit s rest : string) :
  Re.match_literal lit s = Some rest <-> s = lit +:+ rest.
Proof.
  revert s; induction lit as [|a lit IH]; intros s; simpl.
  - split; [intros H; now injection H | intros ->; reflexivity].
  - destruct s as [|b s]; [split; discriminate|].
    destruct (Ascii.eqb a b) eqn:Hab.
    + apply Ascii.eqb_eq in Hab; subst b.
      rewrite IH; split; [intros ->; reflexivity | intros H; now injection H].
    + apply Ascii.eqb_neq in Hab.
      split; [discriminate | intros H; injection H as -> _; contradiction].
Qed.

Lemma match_literal_none (lit s : string) :
  Re.match_literal lit s = None <-> ~ starts_with lit s.
Proof.
  split.
  - intros Hnone [rest Hrest].
    apply match_literal_append in Hrest; congruence.
  - intros Hno; destruct (Re.match_literal lit s) as [rest|] eqn:Hm; [|reflexivity].
    apply match_literal_append in Hm; exfalso; apply Hno; now exists rest.
Qed.

Lemma match_literal_group_some (lit s group1 : string) :
  Re.match_literal_group lit s = Some group1 <->
  exists rest, s = lit +:+ rest /\ group1 = Re.dot_star rest.
Proof.
  unfold Re.match_literal_group.
  destruct (Re.match_literal lit s) as [rest|] eqn:Hm.
  - apply match_literal_append in Hm; subst s; split.
    + intros H; injection H as <-; now exists rest.
    + intros [rest' [Heq ->]].
      assert (Hr : Re.match_literal lit (lit +:+ rest) = Some rest')
        by now apply match_literal_append.
      assert (Hr' : Re.match_literal lit (lit +:+ rest) = Some rest)
        by now apply match_literal_append.
      congruence.
  - apply match_literal_none in Hm; split; [discriminate|].
    intros [rest [Heq _]]; exfalso; apply Hm; now exists rest.
Qed.

Lemma match_literal_group_none (lit s : string) :
  Re.match_literal_group lit s = None <-> ~ starts_with lit s.
Proof.
  unfold Re.match_literal_group; rewrite <- match_literal_none.
  destruct (Re.match_literal lit s); split; congruence.
Qed.

(** The loop appends the values of its references, in order, and stops at
    the first reference that is refused. *)
Lemma managed_policies_loop_map (c : config) (working_on : string)
      (managed_policies : list string) :
  forall managed_policy_list,
    managed_policies_loop c working_on managed_policies managed_policy_list =
    try vs <- map_result (resolve_ref c working_on) managed_policies;
    ok (managed_policy_list ++ vs).
Proof.
  induction managed_policies as [|mp rest IH]; intros acc;
    cbn [managed_policies_loop map_result].
  - unfold ok; cbn [rbind]; now rewrite app_nil_r.
  - remember (map_result (resolve_ref c working_on) rest) as tail eqn:Htail in *.
    clear Htail; unfold resolve_ref.
    destruct (Re.match_literal "arn:aws" mp).
    { rewrite IH; unfold ok; cbn [rbind].
      destruct tail; cbn [rbind]; [reflexivity|].
      now rewrite <- app_assoc. }
    destruct (Re.match_literal_group "import:" mp).
    { rewrite IH; unfold ok; cbn [rbind].
      destruct tail; cbn [rbind]; [reflexivity|].
      now rewrite <- app_assoc. }
    destruct (is_local_managed_policy c mp); [|reflexivity].
    destruct (map_account c (current_account c)) as [e|account_id]; cbn [rbind];
      [reflexivity|].
    destruct (is_managed_policy_in_account c mp account_id); [|reflexivity].
    rewrite IH; unfold ok; cbn [rbind].
    destruct tail; cbn [rbind]; [reflexivity|].
    now rewrite <- app_assoc.
Qed.

Lemma parse_managed_policies_map (c : config) (managed_policies : list string)
      (working_on : string) :
  parse_managed_policies c managed_policies working_on =
  map_result (resolve_ref c working_on) managed_policies.
Proof.
  unfold parse_managed_policies; rewrite managed_policies_loop_map.
  destruct (map_result _ managed_policies); reflexivity.
Qed.

Lemma map_result_ok {A B : Type} (f : A -> result B) (l : list A) (ys : list B) :
  map_result f l = ok ys <-> Forall2 (fun x y => f x = ok y) l ys.
Proof.
  revert ys; induction l as [|x rest IH]; intros ys; simpl.
  - split; [intros H; injection H as <-; constructor | intros H; now inversion H].
  - split.
    + destruct (f x) as [e|y] eqn:Hy; simpl; [discriminate|].
      destruct (map_result f rest) as [e|ys'] eqn:Hys; simpl; [discriminate|].
      intros H; injection H as <-.
      constructor; [exact Hy | now apply IH].
    + intros H; inversion H as [|? y ? ys' Hy Hrest]; subst.
      rewrite Hy; simpl.
      apply IH in Hrest; rewrite Hrest; reflexivity.
Qed.

Lemma map_result_raise {A B : Type} (f : A -> result B) (l : list A) (e : error) :
  map_result f l = raise e <->
  exists done ys x rest,
    l = done ++ x :: rest
    /\ Forall2 (fun x y => f x = ok y) done ys
    /\ f x = raise e.
Proof.
  induction l as [|x rest IH]; simpl.
  - split; [discriminate|].
    intros (done & ys & x & rest & Heq & _); destruct done; discriminate.
  - split.
    + destruct (f x) as [e'|y] eqn:Hy; simpl.
      * intros H; injection H as ->.
        exists [], [], x, rest; repeat split; [constructor | exact Hy].
      * destruct (map_result f rest) as [e'|ys'] eqn:Hys; simpl; [|discriminate].
        intros H; injection H as ->.
        destruct (proj1 IH eq_refl) as (done & ys & x' & rest' & -> & Hdone & Hx').
        exists (x :: done), (y :: ys), x', rest'; repeat split; trivial.
        now constructor.
    + intros (done & ys & x' & rest' & Heq & Hdone & Hx').
      destruct done as [|d done]; simpl in Heq; injection Heq as -> ->.
      * rewrite Hx'; reflexivity.
      * inversion Hdone as [|? y ? ys' Hy Hrest]; subst.
        rewrite Hy; simpl.
        assert (Hr : map_result f (done ++ x' :: rest') = raise e)
          by (apply IH; eauto 8).
        rewrite Hr; reflexivity.
Qed.

Lemma dot_star_single_line (s : string) :
  Re.occurs Re.LF s = false -> Re.dot_star s = s.
Proof.
  induction s as [|ch rest IH]; cbn [Re.occurs Re.dot_star]; [reflexivity|].
  unfold Re.dot; rewrite (Ascii.eqb_sym ch Re.LF).
  destruct (Ascii.eqb Re.LF ch); cbn [orb negb]; [intros H; discriminate H|].
  intros Hrest; now rewrite (IH Hrest).
Qed.

Lemma dot_star_line_feed (line tail : string) :
  Re.occurs Re.LF line = false ->
  Re.dot_star (line +:+ String Re.LF tail) = line.
Proof.
  induction line as [|ch rest IH].
  - intros _; reflexivity.
  - cbn [Re.occurs]; change (String ch rest +:+ String Re.LF tail)
      with (String ch (rest +:+ String Re.LF tail)).
    cbn [Re.dot_star]; unfold Re.dot; rewrite (Ascii.eqb_sym ch Re.LF).
    destruct (Ascii.eqb Re.LF ch); cbn [orb negb]; [intros H; discriminate H|].
    intros Hrest; now rewrite (IH Hrest).
Qed.

Lemma dot_star_no_line_feed (s : string) : Re.occurs Re.LF (Re.dot_star s) = false.
Proof.
  induction s as [|ch rest IH]; cbn [Re.dot_star]; [reflexivity|].
  unfold Re.dot; destruct (Ascii.eqb ch Re.LF) eqn:Hch; cbn [negb]; [reflexivity|].
  cbn [Re.occurs]; rewrite (Ascii.eqb_sym Re.LF ch), Hch; exact IH.
Qed.

Lemma dot_star_rest (s : string) :
  s = Re.dot_star s \/ exists tail, s = Re.dot_star s +:+ String Re.LF tail.
Proof.
  induction s as [|ch rest IH]; cbn [Re.dot_star]; [now left|].
  unfold Re.dot; destruct (Ascii.eqb ch Re.LF) eqn:Hch; cbn [negb].
  - apply Ascii.eqb_eq in Hch; subst ch; right; now exists rest.
  - destruct IH as [IH | [tail IH]].
    + left; now rewrite <- IH.
    + right; exists tail.
      change (String ch (Re.dot_star rest) +:+ String Re.LF tail)
        with (String ch (Re.dot_star rest +:+ String Re.LF tail)).
      now rewrite <- IH.
Qed.

(** What [.*] captures is the first line, and nothing else is. *)
Lemma dot_star_first_line (s line : string) :
  Re.dot_star s = line <-> first_line s line.
Proof.
  split.
  - intros <-; split; [apply dot_star_no_line_feed | apply dot_star_rest].
  - intros [Hline [-> | [tail ->]]].
    + now apply dot_star_single_line.
    + now apply dot_star_line_feed.
Qed.

Lemma import_not_literal (rest : string) :
  Re.match_literal "arn:aws" ("import:" +:+ rest) = None.
Proof. reflexivity. Qed.

Lemma resolve_ref_ok (c : config) (working_on ref : string) (v : value) :
  resolve_ref c working_on ref = ok v <-> resolves_ref c ref v.
Proof.
  unfold resolve_ref; split.
  - destruct (Re.match_literal "arn:aws" ref) as [rest|] eqn:Harn.
    { intros H; injection H as <-.
      apply resolves_literal; exists rest; now apply match_literal_append. }
    apply match_literal_none in Harn.
    destruct (Re.match_literal_group "import:" ref) as [g|] eqn:Himp.
    { intros H; injection H as <-.
      apply match_literal_group_some in Himp as [rest [-> ->]].
      now apply resolves_import, dot_star_first_line. }
    apply match_literal_group_none in Himp.
    destruct (is_local_managed_policy c ref) eqn:Hlocal; [|discriminate].
    destruct (map_account c (current_account c)) as [e|account_id] eqn:Hacct;
      simpl; [discriminate|].
    destruct (is_managed_policy_in_account c ref account_id) eqn:Hin; [|discriminate].
    intros H; injection H as <-.
    now apply (resolves_local c ref account_id).
  - intros [ref' [rest Hrest] | rest line Hline
            | ref' account_id Harn Himp Hlocal Hacct Hin].
    + apply match_literal_append in Hrest; rewrite Hrest; reflexivity.
    + rewrite import_not_literal.
      assert (Hg : Re.match_literal_group "import:" ("import:" +:+ rest)
                   = Some (Re.dot_star rest))
        by (apply match_literal_group_some; eauto).
      apply dot_star_first_line in Hline.
      rewrite Hg, Hline; reflexivity.
    + apply match_literal_none in Harn; rewrite Harn.
      apply match_literal_group_none in Himp; rewrite Himp.
      rewrite Hlocal, Hacct; simpl; rewrite Hin; reflexivity.
Qed.

Lemma resolve_ref_raise (c : config) (working_on ref : string) (e : error) :
  has_key (current_account c) (account_map_ids c) = true ->
  resolve_ref c working_on ref = raise e <-> rejects_ref c working_on ref e.
Proof.
  intros Hcurrent.
  apply has_key_assoc in Hcurrent as [account_id Hid].
  assert (Hacct : map_account c (current_account c) = ok account_id)
    by (unfold map_account; rewrite Hid; reflexivity).
  unfold resolve_ref; split.
  - destruct (Re.match_literal "arn:aws" ref) as [rest|] eqn:Harn; [discriminate|].
    apply match_literal_none in Harn.
    destruct (Re.match_literal_group "import:" ref) as [g|] eqn:Himp; [discriminate|].
    apply match_literal_group_none in Himp.
    destruct (is_local_managed_policy c ref) eqn:Hlocal.
    + rewrite Hacct; simpl.
      destruct (is_managed_policy_in_account c ref account_id) eqn:Hin; [discriminate|].
      intros H; injection H as <-.
      now apply (rejects_not_in_account c working_on ref account_id).
    + intros H; injection H as <-.
      now apply rejects_unknown.
  - intros [ref' Harn Himp Hlocal | ref' account_id' Harn Himp Hlocal Hacct' Hin].
    + apply match_literal_none in Harn; rewrite Harn.
      apply match_literal_group_none in Himp; rewrite Himp.
      rewrite Hlocal; reflexivity.
    + apply match_literal_none in Harn; rewrite Harn.
      apply match_literal_group_none in Himp; rewrite Himp.
      rewrite Hlocal, Hacct'; simpl; rewrite Hin; reflexivity.
Qed.

Lemma Forall2_iff {A B : Type} (P Q : A -> B -> Prop) (l : list A) (l' : list B) :
  (forall x y, P x y <-> Q x y) -> Forall2 P l l' <-> Forall2 Q l l'.
Proof.
  intros HPQ; split; induction 1; constructor; trivial; now apply HPQ.
Qed.

(** X19.  While the current account is a configured one, the resolver
    returns the values of its references, in order, exactly when each of
    them resolves: a reference that begins with [arn:aws] to itself, a
    reference that begins with [import:] to an import of the first line of
    what follows the prefix (all of it when it has no line feed), and any
    other reference to a local reference to its scrubbed name, provided it
    is declared in the configuration and scheduled for the current account.
    It raises exactly at the first reference that is refused: the
    unknown-policy error, with the owner and the reference, when the
    reference is declared nowhere, whatever the accounts, and the
    not-in-account error when it is declared but not scheduled for the
    current account. *)
Theorem parse_managed_policies_resolution
        (c : config) (refs : list string) (owner : string)
        (Hcurrent : has_key (current_account c) (account_map_ids c) = true) :
  (forall vs : list value,
      parse_managed_policies c refs owner = ok vs <-> Forall2 (resolves_ref c) refs vs)
  /\ (forall e : error,
         parse_managed_policies c refs owner = raise e <->
         exists done vs ref rest,
           refs = done ++ ref :: rest
           /\ Forall2 (resolves_ref c) done vs
           /\ rejects_ref c owner ref e).
Proof.
  rewrite parse_managed_policies_map; split.
  - intros vs; rewrite map_result_ok.
    apply Forall2_iff; intros; apply resolve_ref_ok.
  - intros e; rewrite map_result_raise; split.
    + intros (done & vs & ref & rest & Heq & Hdone & Href).
      exists done, vs, ref, rest; repeat split; trivial.
      * revert Hdone; apply Forall2_iff; intros; symmetry; apply resolve_ref_ok.
      * now apply resolve_ref_raise.
    + intros (done & vs & ref & rest & Heq & Hdone & Href).
      exists done, vs, ref, rest; repeat split; trivial.
      * revert Hdone; apply Forall2_iff; intros; apply resolve_ref_ok.
      * now apply resolve_ref_raise.
Qed.

Lemma parse_managed_policies_resolution_witness :
  (forall vs : list value,
      parse_managed_policies policies_config
        ["arn:aws:iam::aws:policy/ReadOnlyAccess"; "import:Shared"; "ReadOnly"] "Admin"
      = ok vs <->
      Forall2 (resolves_ref policies_config)
        ["arn:aws:iam::aws:policy/ReadOnlyAccess"; "import:Shared"; "ReadOnly"] vs)
  /\ (forall e : error,
         parse_managed_policies policies_config
           ["arn:aws:iam::aws:policy/ReadOnlyAccess"; "import:Shared"; "ReadOnly"] "Admin"
         = raise e <->
         exists done vs ref rest,
           ["arn:aws:iam::aws:policy/ReadOnlyAccess"; "import:Shared"; "ReadOnly"]
           = done ++ ref :: rest
           /\ Forall2 (resolves_ref policies_config) done vs
           /\ rejects_ref policies_config "Admin" ref e).
Proof.
  apply (parse_managed_policies_resolution
           policies_config
           ["arn:aws:iam::aws:policy/ReadOnlyAccess"; "import:Shared"; "ReadOnly"]
           "Admin").
  reflexivity.
Defined.

Example parse_managed_policies_accepts :
  parse_managed_policies policies_config
    ["arn:aws:iam::aws:policy/ReadOnlyAccess"; "import:Shared"; "ReadOnly"] "Admin"
  = ok [Str "arn:aws:iam::aws:policy/ReadOnlyAccess"; ImportValue "Shared"; Ref "ReadOnly"].
Proof. reflexivity. Qed.

Example parse_managed_policies_unknown :
  parse_managed_policies policies_config ["ReadOnly"; "Missing"] "Admin"
  = raise (UnknownManagedPolicy "Admin" "Missing").
Proof. reflexivity. Qed.

Example parse_managed_policies_other_account :
  parse_managed_policies policies_config ["Billing"] "Admin"
  = raise (PolicyNotInAccount "Admin" "Billing" "prod").
Proof. reflexivity. Qed.

(** C1.  On a reference that spans two lines the import is not of what
    follows the prefix, as it is in every other case, but of its first line
    only: the group of the pattern stops at the line feed. *)
Lemma parse_managed_policies_import_line_feed :
  Re.match_literal "import:" ("import:a" +:+ String Re.LF "b")
    = Some ("a" +:+ String Re.LF "b")
  /\ parse_managed_policies prod_config ["import:a" +:+ String Re.LF "b"] "Admin"
     = ok [ImportValue "a"]
  /\ ImportValue "a" <> ImportValue ("a" +:+ String Re.LF "b").
Proof. repeat split; discriminate. Qed.

(** ** Import expansion *)

Lemma imports_loop_map (element_list : list string) :
  forall return_list,
    imports_loop element_list return_list
    = return_list ++ List.map expand_import element_list.
Proof.
  induction element_list as [|element rest IH]; intros acc;
    cbn [imports_loop List.map].
  - now rewrite app_nil_r.
  - unfold expand_import at 1.
    destruct (Re.match_literal_group "import:" element);
      rewrite IH, <- app_assoc; reflexivity.
Qed.

Lemma expand_import_entry (entry : string) :
  expands_entry entry (expand_import entry).
Proof.
  unfold expand_import; split.
  - intros export -> Hline.
    assert (Hg : Re.match_literal_group "import:" ("import:" +:+ export)
                 = Some (Re.dot_star export))
      by (apply match_literal_group_some; eauto).
    now rewrite Hg, (dot_star_single_line export Hline).
  - intros Hno; apply match_literal_group_none in Hno; now rewrite Hno.
Qed.

Lemma parse_imports_expands (c : config) (element_list : list string) :
  Forall2 expands_entry element_list (parse_imports c element_list).
Proof.
  unfold parse_imports; rewrite imports_loop_map; cbn [app].
  induction element_list as [|element rest IH]; cbn [List.map]; constructor.
  - apply expand_import_entry.
  - exact IH.
Qed.

Lemma imports_or_empty_expands (c : config) (field : option (list string)) :
  Forall2 expands_entry (member_list field) (imports_or_empty c field).
Proof.
  destruct field as [l|]; cbn [member_list imports_or_empty].
  - apply parse_imports_expands.
  - constructor.
Qed.

(** ** The resource assemblers *)

Lemma template_of_insert (c : config) (account : string) (t : Template) :
  template_of (set_template (<[account := t]> (template c)) c) account = t.
Proof.
  unfold template_of; cbn [template set_template].
  now rewrite lookup_insert_eq.
Qed.

Lemma new_resource_ok (r constructed : resource) :
  new_resource r = ok constructed -> constructed = r.
Proof.
  unfold new_resource.
  destruct (title_refused (resource_title r)); [discriminate|].
  destruct r as [title kw| | | |]; try (intros H; now injection H).
  destruct (is_dict (mp_PolicyDocument kw)); [|discriminate].
  intros H; now injection H.
Qed.

Lemma add_resource_ok (r : resource) (t t' : Template) :
  add_resource r t = ok t' ->
  t' = {| resources := resources t ++ [r]; outputs := outputs t |}.
Proof.
  unfold add_resource.
  destruct (mem (resource_title r) (List.map resource_title (resources t)));
    [discriminate|].
  intros H; now injection H.
Qed.

(** Adding the resource, when the library takes it, and then the outputs,
    when they are enabled. *)
Lemma register_then_export (r : resource) (os : list Output) (c : config) :
  (do _ <- register_resource r; export_outputs os) c
  = match library_check c r with
    | inl e => (raise e, c)
    | inr _ => (ok tt, registered c r os)
    end.
Proof.
  unfold library_check, register_resource.
  unfold mbind at 1 2; unfold lift at 1.
  destruct (new_resource r) as [e|constructed] eqn:Hnew; cbn [rbind]; [reflexivity|].
  apply new_resource_ok in Hnew; subst constructed.
  unfold mbind at 1, get, ok; cbn beta iota.
  unfold mbind at 1, lift.
  destruct (add_resource r (template_of c (current_account c))) as [e|t] eqn:Hadd;
    cbn [rbind]; [reflexivity|].
  apply add_resource_ok in Hadd; subst t.
  unfold export_outputs, modify, mbind, get, registered, ok.
  cbn beta iota.
  set (c1 := set_template _ c).
  assert (Hflag : outputs_enabled c1 = outputs_enabled c) by reflexivity.
  rewrite Hflag.
  destruct (outputs_enabled c); unfold register_output, modify, mret.
  - f_equal.
    assert (Hcur : current_account c1 = current_account c) by reflexivity.
    rewrite Hcur; unfold c1; rewrite template_of_insert.
    unfold set_template; cbn [tree account_map_ids parent_account_id saml_provider
                               current_account template].
    now rewrite insert_insert_eq.
  - f_equal; unfold c1.
    now rewrite app_nil_r.
Qed.

Lemma registered_current_account (c : config) (r : resource) (os : list Output) :
  current_account (registered c r os) = current_account c.
Proof. reflexivity. Qed.

Lemma registered_template_of (c : config) (r : resource) (os : list Output) :
  template_of (registered c r os) (current_account c)
  = {| resources := resources (template_of c (current_account c)) ++ [r];
       outputs := outputs (template_of c (current_account c))
                  ++ (if outputs_enabled c then os else []) |}.
Proof. unfold registered; apply template_of_insert. Qed.

Lemma registered_other_account (c : config) (r : resource) (os : list Output)
      (account : string) :
  account <> current_account c ->
  template (registered c r os) !! account = template c !! account.
Proof.
  intros Hne; unfold registered; cbn [template set_template].
  now rewrite lookup_insert_ne.
Qed.

Lemma registered_template_of_other (c : config) (r : resource) (os : list Output)
      (account : string) :
  account <> current_account c ->
  template_of (registered c r os) account = template_of c account.
Proof.
  intros Hne; unfold template_of.
  now rewrite registered_other_account.
Qed.

Lemma add_managed_policy_registered
      (name : string) (doc : document) (model : policy_model) (named : bool)
      (c : config) :
  add_managed_policy name doc model named c
  = match library_check c
            (ManagedPolicy (scrub_name name)
               (managed_policy_kw_args c name doc model named)) with
    | inl e => (raise e, c)
    | inr _ =>
        (ok tt,
         registered c
           (ManagedPolicy (scrub_name name)
              (managed_policy_kw_args c name doc model named))
           [managed_policy_output (scrub_name name)
              (mp_Description (managed_policy_kw_args c name doc model named))])
    end.
Proof.
  unfold add_managed_policy.
  unfold mbind at 1, get; cbn beta iota.
  apply register_then_export.
Qed.

Lemma create_instance_profile_registered
      (name : string) (model : role_model) (named : bool) (c : config) :
  create_instance_profile name model named c
  = match library_check c
            (InstanceProfile (scrub_name (name +:+ "InstanceProfile"))
                             (instance_profile_kw_args name model named)) with
    | inl e => (raise e, c)
    | inr _ =>
        (ok tt,
         registered c
           (InstanceProfile (scrub_name (name +:+ "InstanceProfile"))
                            (instance_profile_kw_args name model named))
           [instance_profile_output (scrub_name (name +:+ "InstanceProfile")) name])
    end.
Proof. unfold create_instance_profile; apply register_then_export. Qed.

Lemma lift_bind {A B : Type} (f : config -> result A) (k : A -> M B) (c : config) :
  (do x <- lift f; k x) c
  = match f c with
    | inl e => (inl e, c)
    | inr x => k x c
    end.
Proof. unfold mbind, lift; destruct (f c); reflexivity. Qed.

Lemma add_role_registered
      (name : string) (model : role_model) (named : bool) (c : config) :
  add_role name model named c
  = match role_kw_args c name model named with
    | inl e => (raise e, c)
    | inr kw =>
        match library_check c (Role (scrub_name (name +:+ "Role")) kw) with
        | inl e => (raise e, c)
        | inr _ =>
            (ok tt,
             registered c (Role (scrub_name (name +:+ "Role")) kw)
               [arn_output (scrub_name (name +:+ "Role")) ("Role " +:+ name +:+ " ARN")])
        end
    end.
Proof.
  unfold add_role; rewrite lift_bind.
  destruct (role_kw_args c name model named) as [e|kw]; [reflexivity|].
  apply register_then_export.
Qed.

Lemma add_group_registered
      (name : string) (model : group_model) (named : bool) (c : config) :
  add_group name model named c
  = match group_kw_args c name model named with
    | inl e => (raise e, c)
    | inr kw =>
        match library_check c
                (Group (scrub_name (scrub_name (name +:+ "Group"))) kw) with
        | inl e => (raise e, c)
        | inr _ =>
            (ok tt,
             registered c (Group (scrub_name (scrub_name (name +:+ "Group"))) kw)
               [arn_output (scrub_name (name +:+ "Group"))
                           ("Group " +:+ name +:+ " ARN")])
        end
    end.
Proof.
  unfold add_group; rewrite lift_bind.
  destruct (group_kw_args c name model named) as [e|kw]; [reflexivity|].
  apply register_then_export.
Qed.

Lemma add_user_registered
      (name : string) (model : user_model) (named : bool) (c : config) :
  add_user name model named c
  = match user_kw_args c name model named with
    | inl e => (raise e, c)
    | inr kw =>
        match library_check c (User (scrub_name (name +:+ "User")) kw) with
        | inl e => (raise e, c)
        | inr _ =>
            (ok tt,
             registered c (User (scrub_name (name +:+ "User")) kw)
               [arn_output (scrub_name (name +:+ "User")) ("User " +:+ name +:+ " ARN")])
        end
    end.
Proof.
  unfold add_user; rewrite lift_bind.
  destruct (user_kw_args c name model named) as [e|kw]; [reflexivity|].
  apply register_then_export.
Qed.

(** Every assembler call raises before it touches the object, or registers
    one resource and its output. *)
Lemma run_call_assembles (call : assembler_call) :
  assembles (run_call call)
            (stack_prefix +:+ identifier_of call +:+ export_suffix call).
Proof.
  intros c; destruct call as [name doc model named | name model named
                              | name model named | name model named
                              | name model named];
    cbn [run_call identifier_of export_suffix].
  - rewrite add_managed_policy_registered.
    destruct (library_check c _); [left|right]; eauto.
  - rewrite create_instance_profile_registered.
    destruct (library_check c _); [left|right]; eauto.
  - rewrite add_role_registered.
    destruct (role_kw_args c name model named); [left; eauto|].
    destruct (library_check c _); [left|right]; eauto.
  - rewrite add_group_registered.
    destruct (group_kw_args c name model named); [left; eauto|].
    destruct (library_check c _); [left|right]; eauto.
  - rewrite add_user_registered.
    destruct (user_kw_args c name model named); [left; eauto|].
    destruct (library_check c _); [left|right]; eauto.
Qed.

(** C5.  When an assembler call has assembled its resource, what it
    appended to the outputs of the document of the current account is one
    output if the flag [template_outputs] of the global section is
    [enabled], and nothing if it is anything else; the export name of that
    output is the stack-name prefix, the scrubbed identifier of the
    resource and the suffix of its type. *)
Theorem outputs_appended_iff_enabled
        (call : assembler_call) (c c' : config)
        (Hassembled : run_call call c = (ok tt, c')) :
  exists os : list Output,
    outputs (template_of c' (current_account c))
    = outputs (template_of c (current_account c)) ++ os
    /\ (template_outputs (global (tree c)) = "enabled" ->
        exists o, os = [o]
                  /\ out_Export o
                     = "${AWS::StackName}-" +:+ identifier_of call +:+ export_suffix call)
    /\ (template_outputs (global (tree c)) <> "enabled" -> os = [])
    /\ (os <> [] <-> template_outputs (global (tree c)) = "enabled").
Proof.
  destruct (run_call_assembles call c) as [[e He] | (r & o & Hrun & Ho)].
  - rewrite He in Hassembled; discriminate.
  - rewrite Hrun in Hassembled; injection Hassembled as <-.
    rewrite registered_template_of; cbn [outputs].
    eexists; split; [reflexivity|].
    unfold outputs_enabled.
    destruct (String.eqb (template_outputs (global (tree c))) "enabled") eqn:Hflag.
    + apply String.eqb_eq in Hflag.
      repeat split; try congruence; eauto.
    + apply String.eqb_neq in Hflag.
      repeat split; try congruence; try contradiction.
Qed.

Lemma outputs_appended_iff_enabled_witness :
  exists os : list Output,
    outputs (template_of (snd (run_call (Call_add_role "Admin" admin_role true) saml_config))
                         (current_account saml_config))
    = outputs (template_of saml_config (current_account saml_config)) ++ os
    /\ (template_outputs (global (tree saml_config)) = "enabled" ->
        exists o, os = [o]
                  /\ out_Export o
                     = "${AWS::StackName}-"
                       +:+ identifier_of (Call_add_role "Admin" admin_role true)
                       +:+ export_suffix (Call_add_role "Admin" admin_role true))
    /\ (template_outputs (global (tree saml_config)) <> "enabled" -> os = [])
    /\ (os <> [] <-> template_outputs (global (tree saml_config)) = "enabled").
Proof.
  apply (outputs_appended_iff_enabled (Call_add_role "Admin" admin_role true) saml_config).
  reflexivity.
Defined.

(** C9.  An assembler call leaves the current account as it is and leaves
    the document of every other account as it is.  When it succeeds, the
    document of the current account has one resource more; when it raises,
    nothing has changed. *)
Theorem assembler_call_frame (call : assembler_call) (c : config) :
  current_account (snd (run_call call c)) = current_account c
  /\ (forall account : string,
         account <> current_account c ->
         template (snd (run_call call c)) !! account = template c !! account)
  /\ (fst (run_call call c) = ok tt ->
      exists r : resource,
        resources (template_of (snd (run_call call c)) (current_account c))
        = resources (template_of c (current_account c)) ++ [r])
  /\ (forall e : error, fst (run_call call c) = raise e -> snd (run_call call c) = c).
Proof.
  destruct (run_call_assembles call c) as [[e He] | (r & o & Hrun & Ho)].
  - rewrite He; cbn [fst snd]; repeat split; trivial; discriminate.
  - rewrite Hrun; cbn [fst snd]; repeat split.
    + intros account Hne; now apply registered_other_account.
    + intros _; exists r; now rewrite registered_template_of.
    + discriminate.
Qed.

(** ** Import expansion in the membership lists of a policy *)

(** C7, as stated, fails: an import in the role membership list of a
    policy model is converted to a cross-template reference. *)
Lemma add_managed_policy_expands_roles :
  exists kw : managed_policy_args,
    fst (add_managed_policy "Deploy" (DocJson (JObject [])) importing_policy false
                            saml_config) = ok tt
    /\ resources (template_of
                    (snd (add_managed_policy "Deploy" (DocJson (JObject []))
                                             importing_policy false saml_config))
                    "prod")
       = [ManagedPolicy "Deploy" kw]
    /\ mp_Roles kw = [ImportValue "SharedRole"]
    /\ mp_Roles kw <> [Str "import:SharedRole"].
Proof. eexists; repeat split; discriminate. Qed.

(** C7, as the code has it.  When the assembler of a managed policy
    succeeds, the three membership lists of the resource it registers,
    groups, users and roles alike, are the lists of the model with every
    entry passed through the import expansion: an entry made of the import
    prefix and an export name becomes the reference to that export, and an
    entry without the prefix is kept as it is; a list the model does not
    have is empty. *)
Theorem add_managed_policy_expands_memberships
        (name : string) (doc : document) (model : policy_model) (named : bool)
        (c c' : config)
        (Hassembled : add_managed_policy name doc model named c = (ok tt, c')) :
  exists kw : managed_policy_args,
    resources (template_of c' (current_account c))
    = resources (template_of c (current_account c))
      ++ [ManagedPolicy (scrub_name name) kw]
    /\ Forall2 expands_entry (member_list (policy_groups model)) (mp_Groups kw)
    /\ Forall2 expands_entry (member_list (policy_users model)) (mp_Users kw)
    /\ Forall2 expands_entry (member_list (policy_roles model)) (mp_Roles kw).
Proof.
  rewrite add_managed_policy_registered in Hassembled.
  destruct (library_check c _); [discriminate|].
  injection Hassembled as <-.
  eexists; split.
  - now rewrite registered_template_of.
  - cbn [managed_policy_kw_args mp_Groups mp_Users mp_Roles].
    repeat split; apply imports_or_empty_expands.
Qed.

Lemma add_managed_policy_expands_memberships_witness :
  exists kw : managed_policy_args,
    resources (template_of
                 (snd (add_managed_policy "Deploy" (DocJson (JObject []))
                                          importing_policy false saml_config))
                 (current_account saml_config))
    = resources (template_of saml_config (current_account saml_config))
      ++ [ManagedPolicy (scrub_name "Deploy") kw]
    /\ Forall2 expands_entry (member_list (policy_groups importing_policy)) (mp_Groups kw)
    /\ Forall2 expands_entry (member_list (policy_users importing_policy)) (mp_Users kw)
    /\ Forall2 expands_entry (member_list (policy_roles importing_policy)) (mp_Roles kw).
Proof.
  apply (add_managed_policy_expands_memberships
           "Deploy" (DocJson (JObject [])) importing_policy false saml_config).
  reflexivity.
Defined.

(** ** Roles and their instance profiles *)

Lemma mem_In (x : string) (l : list string) : mem x l = true <-> In x l.
Proof.
  induction l as [|y l IH]; cbn [mem In].
  - split; [discriminate | contradiction].
  - rewrite orb_true_iff, IH, String.eqb_eq.
    split; (intros [H|H]; [left; congruence | now right]).
Qed.

Lemma role_kw_args_trusts (c : config) (name : string) (model : role_model)
      (named : bool) (kw : role_args) :
  role_kw_args c name model named = ok kw ->
  exists trust_list,
    trusts model = Some trust_list
    /\ build_role_trust c trust_list = ok (role_AssumeRolePolicyDocument kw)
    /\ role_RoleName kw = opt_name named name.
Proof.
  unfold role_kw_args.
  destruct (trusts model) as [trust_list|]; [|discriminate].
  unfold ok at 1; cbn [rbind].
  destruct (build_role_trust c trust_list) as [e|doc] eqn:Hdoc; cbn [rbind];
    [discriminate|].
  destruct (managed_policy_arns c (role_managed_policies model) name) as [e|arns];
    cbn [rbind]; [discriminate|].
  intros H; injection H as <-.
  exists trust_list; split; [reflexivity|split; [exact Hdoc|reflexivity]].
Qed.

(** The step of a role in an account: the role, and after it the instance
    profile when the trust list has the instance service. *)
Lemma role_account_step_registered
      (role_name : string) (model : role_model) (account : string) (c : config) :
  let c1 := set_current_account account c in
  let named := names_roles (names (global (tree c))) in
  role_account_step role_name model account c
  = match role_kw_args c1 role_name model named with
    | inl e => (raise e, c1)
    | inr kw =>
        match library_check c1 (Role (scrub_name (role_name +:+ "Role")) kw) with
        | inl e => (raise e, c1)
        | inr _ =>
            let c2 :=
              registered c1 (Role (scrub_name (role_name +:+ "Role")) kw)
                [arn_output (scrub_name (role_name +:+ "Role"))
                            ("Role " +:+ role_name +:+ " ARN")] in
            if mem "ec2.amazonaws.com" (member_list (trusts model))
            then
              match library_check c2
                      (InstanceProfile (scrub_name (role_name +:+ "InstanceProfile"))
                         (instance_profile_kw_args role_name model named)) with
              | inl e => (raise e, c2)
              | inr _ =>
                  (ok tt,
                   registered c2
                     (InstanceProfile (scrub_name (role_name +:+ "InstanceProfile"))
                        (instance_profile_kw_args role_name model named))
                     [instance_profile_output
                        (scrub_name (role_name +:+ "InstanceProfile")) role_name])
              end
            else (ok tt, c2)
        end
    end.
Proof.
  intros c1 named.
  unfold role_account_step.
  unfold mbind at 1, modify, ok; cbn beta iota.
  unfold mbind at 1, get, ok; cbn beta iota.
  fold c1; change (names_roles (names (global (tree c1)))) with named.
  unfold mbind at 1; rewrite add_role_registered.
  destruct (role_kw_args c1 role_name model named) as [e|kw] eqn:Hkw; [reflexivity|].
  destruct (library_check c1 _) as [e|u]; [reflexivity|].
  unfold ok; cbn beta iota zeta.
  apply role_kw_args_trusts in Hkw as (trust_list & Htrusts & _).
  rewrite lift_bind, Htrusts; unfold ok; cbn [member_list].
  destruct (mem "ec2.amazonaws.com" trust_list); [|reflexivity].
  unfold mbind at 1, get, ok; cbn beta iota.
  apply create_instance_profile_registered.
Qed.

Lemma registered_template_of_eq (c : config) (r : resource) (os : list Output)
      (account : string) :
  account = current_account c ->
  template_of (registered c r os) account
  = {| resources := resources (template_of c account) ++ [r];
       outputs := outputs (template_of c account)
                  ++ (if outputs_enabled c then os else []) |}.
Proof. intros ->; apply registered_template_of. Qed.

(** C6.  When the step of a role in an account succeeds, the document of
    that account has received the role, whose trust document is the one the
    trust builder makes of the trust list, and, exactly when the trust list
    has [ec2.amazonaws.com], an instance profile after it whose roles are
    the reference to that role; no other document has changed.  With the
    account [prod] and the role [Admin] that trusts only the instance
    service, the document of [prod] holds the role, named [Admin], with the
    single service statement, and the matching instance profile. *)
Theorem role_account_step_instance_profile
        (role_name : string) (model : role_model) (account : string) (c c' : config)
        (Hassembled : role_account_step role_name model account c = (ok tt, c')) :
  (exists (trust_list : list string) (kw : role_args),
      trusts model = Some trust_list
      /\ build_role_trust (set_current_account account c) trust_list
         = ok (role_AssumeRolePolicyDocument kw)
      /\ (In "ec2.amazonaws.com" trust_list ->
          exists ip : instance_profile_args,
            resources (template_of c' account)
            = resources (template_of c account)
              ++ [ Role (scrub_name (role_name +:+ "Role")) kw;
                   InstanceProfile (scrub_name (role_name +:+ "InstanceProfile")) ip ]
            /\ ip_Roles ip = [Ref (scrub_name (role_name +:+ "Role"))])
      /\ (~ In "ec2.amazonaws.com" trust_list ->
          resources (template_of c' account)
          = resources (template_of c account)
            ++ [ Role (scrub_name (role_name +:+ "Role")) kw ])
      /\ (forall other : string,
             other <> account -> template c' !! other = template c !! other))
  /\ (forall render : config -> string -> policy_model -> result json,
         fst (build render prod_config) = ok tt
         /\ resources (template_of (snd (build render prod_config)) "prod")
            = [ Role "AdminRole"
                  {| role_RoleName := Some "Admin";
                     role_Path := "/";
                     role_AssumeRolePolicyDocument :=
                       {| Version := "2012-10-17";
                          Statement :=
                            [ {| Effect := "Allow";
                                 Principal := Some (Service "ec2.amazonaws.com");
                                 Action := "sts:AssumeRole";
                                 Resource := None;
                                 Condition := None |} ] |};
                     role_ManagedPolicyArns := [];
                     role_Policies := [];
                     role_DeletionPolicy := None |};
                InstanceProfile "AdminInstanceProfile"
                  {| ip_InstanceProfileName := Some "Admin";
                     ip_Path := "/";
                     ip_Roles := [Ref "AdminRole"];
                     ip_DeletionPolicy := None |} ]).
Proof.
  split; [|intros render; split; reflexivity].
  pose proof (role_account_step_registered role_name model account c) as Hstep.
  cbn zeta in Hstep; rewrite Hstep in Hassembled; clear Hstep.
  set (c1 := set_current_account account c) in *.
  destruct (role_kw_args c1 role_name model _) as [e|kw] eqn:Hkw; [discriminate|].
  destruct (library_check c1 _) as [e|u]; [discriminate|].
  apply role_kw_args_trusts in Hkw as (trust_list & Htrusts & Hdoc & _).
  rewrite Htrusts in Hassembled; cbn [member_list] in Hassembled.
  exists trust_list, kw; split; [exact Htrusts|split; [exact Hdoc|]].
  destruct (mem "ec2.amazonaws.com" trust_list) eqn:Hmem;
    [destruct (library_check _ _) as [e|u'] in Hassembled; [discriminate|]|];
    injection Hassembled as <-.
  - apply mem_In in Hmem; split; [|split].
    + intros _; eexists; split.
      * rewrite !registered_template_of_eq by reflexivity.
        cbn [resources]; now rewrite <- app_assoc.
      * reflexivity.
    + contradiction.
    + intros other Hne.
      rewrite !registered_other_account by exact Hne; reflexivity.
  - assert (Hnot : ~ In "ec2.amazonaws.com" trust_list)
      by (rewrite <- mem_In; congruence).
    split; [contradiction|split].
    + intros _; now rewrite registered_template_of_eq by reflexivity.
    + intros other Hne.
      rewrite registered_other_account by exact Hne; reflexivity.
Qed.

Lemma role_account_step_instance_profile_witness :
  (exists (trust_list : list string) (kw : role_args),
      trusts admin_role = Some trust_list
      /\ build_role_trust (set_current_account "dev" saml_config) trust_list
         = ok (role_AssumeRolePolicyDocument kw)
      /\ (In "ec2.amazonaws.com" trust_list ->
          exists ip : instance_profile_args,
            resources (template_of
                         (snd (role_account_step "Admin" admin_role "dev" saml_config))
                         "dev")
            = resources (template_of saml_config "dev")
              ++ [ Role (scrub_name ("Admin" +:+ "Role")) kw;
                   InstanceProfile (scrub_name ("Admin" +:+ "InstanceProfile")) ip ]
            /\ ip_Roles ip = [Ref (scrub_name ("Admin" +:+ "Role"))])
      /\ (~ In "ec2.amazonaws.com" trust_list ->
          resources (template_of
                       (snd (role_account_step "Admin" admin_role "dev" saml_config))
                       "dev")
          = resources (template_of saml_config "dev")
            ++ [ Role (scrub_name ("Admin" +:+ "Role")) kw ])
      /\ (forall other : string,
             other <> "dev" ->
             template (snd (role_account_step "Admin" admin_role "dev" saml_config))
               !! other
             = template saml_config !! other))
  /\ (forall render : config -> string -> policy_model -> result json,
         fst (build render prod_config) = ok tt
         /\ resources (template_of (snd (build render prod_config)) "prod")
            = [ Role "AdminRole"
                  {| role_RoleName := Some "Admin";
                     role_Path := "/";
                     role_AssumeRolePolicyDocument :=
                       {| Version := "2012-10-17";
                          Statement :=
                            [ {| Effect := "Allow";
                                 Principal := Some (Service "ec2.amazonaws.com");
                                 Action := "sts:AssumeRole";
                                 Resource := None;
                                 Condition := None |} ] |};
                     role_ManagedPolicyArns := [];
                     role_Policies := [];
                     role_DeletionPolicy := None |};
                InstanceProfile "AdminInstanceProfile"
                  {| ip_InstanceProfileName := Some "Admin";
                     ip_Path := "/";
                     ip_Roles := [Ref "AdminRole"];
                     ip_DeletionPolicy := None |} ]).
Proof.
  apply (role_account_step_instance_profile "Admin" admin_role "dev" saml_config).
  reflexivity.
Defined.

(** ** The document of a policy *)

Lemma has_key_In {V : Type} (k : string) (d : list (string * V)) :
  In k (List.map fst d) -> has_key k d = true.
Proof.
  unfold has_key; induction d as [|[k' v] d IH]; cbn [List.map In assoc fst].
  - contradiction.
  - destruct (String.eqb k k') eqn:Hk; [reflexivity|].
    apply String.eqb_neq in Hk.
    intros [Heq|Hin]; [congruence | now apply IH].
Qed.

(** The accounts a context resolves to are configured accounts. *)
Lemma search_accounts_configured (c : config) (context : list string) :
  Forall (fun a => has_key a (account_map_ids c) = true) (search_accounts c context).
Proof.
  unfold search_accounts; apply List.Forall_forall; intros a Hin.
  destruct (is_all context).
  - now apply has_key_In.
  - now apply List.filter_In in Hin as [_ Hkey].
Qed.

Lemma policy_document_for_of
      (render : config -> string -> policy_model -> result json)
      (policy_name : string) (model : policy_model) (c : config) :
  policy_document_for render policy_name model c
  = (policy_document_of render policy_name model c, c).
Proof.
  unfold policy_document_for, policy_document_of.
  destruct (policy_file model) as [file|].
  - unfold mbind at 1; rewrite lift_bind.
    destruct (render c policy_name model) as [e|j]; [reflexivity|].
    unfold mret, ok; cbn [rbind].
    destruct (assume model) as [a|]; [|reflexivity].
    rewrite lift_bind.
    destruct (build_assume_role_policy_document c _ _); reflexivity.
  - unfold mbind at 1, mret, ok; cbn [rbind].
    destruct (assume model) as [a|]; [|reflexivity].
    rewrite lift_bind.
    destruct (build_assume_role_policy_document c _ _); reflexivity.
Qed.

(** The step of a policy in an account. *)
Lemma policy_account_step_registered
      (render : config -> string -> policy_model -> result json)
      (policy_name : string) (model : policy_model) (account : string) (c : config) :
  let c1 := set_current_account account c in
  let named := names_policies (names (global (tree c))) in
  policy_account_step render policy_name model account c
  = match policy_document_of render policy_name model c1 with
    | inl e => (raise e, c1)
    | inr doc =>
        match library_check c1
                (ManagedPolicy (scrub_name policy_name)
                   (managed_policy_kw_args c1 policy_name doc model named)) with
        | inl e => (raise e, c1)
        | inr _ =>
            (ok tt,
             registered c1
               (ManagedPolicy (scrub_name policy_name)
                  (managed_policy_kw_args c1 policy_name doc model named))
               [managed_policy_output (scrub_name policy_name)
                  (mp_Description
                     (managed_policy_kw_args c1 policy_name doc model named))])
        end
    end.
Proof.
  intros c1 named; unfold policy_account_step.
  unfold mbind at 1, modify, ok; cbn beta iota; fold c1.
  unfold mbind at 1; rewrite policy_document_for_of.
  destruct (policy_document_of render policy_name model c1) as [e|doc]; [reflexivity|].
  unfold mbind at 1, get, ok; cbn beta iota.
  apply add_managed_policy_registered.
Qed.

(** X20.  When the step of a policy in an account succeeds, the document of
    that account has received the managed policy, and the policy document it
    was registered with is: the assume document, one statement per pair of a
    resolved account and a role, when the model has [assume], whether or not
    it has [policy_file]; and the rendered and parsed file when the model
    has [policy_file] and no [assume]. *)
Theorem policy_account_step_document
        (render : config -> string -> policy_model -> result json)
        (policy_name : string) (model : policy_model) (account : string)
        (c c' : config)
        (Hprocessed : policy_account_step render policy_name model account c = (ok tt, c')) :
  exists kw : managed_policy_args,
    resources (template_of c' account)
    = resources (template_of c account) ++ [ManagedPolicy (scrub_name policy_name) kw]
    /\ (forall a : assume_model,
           assume model = Some a ->
           exists (ids : list string) (p : policy),
             Forall2 (fun name i => assoc name (account_map_ids c) = Some i)
                     (search_accounts c (assume_accounts a)) ids
             /\ build_assume_role_policy_document (set_current_account account c)
                  (search_accounts c (assume_accounts a)) (assume_roles a) = ok p
             /\ Statement p
                = List.flat_map
                    (fun role =>
                       List.map
                         (fun i => {| Effect := "Allow";
                                      Principal := None;
                                      Action := "sts:AssumeRole";
                                      Resource :=
                                        Some ("arn:aws:iam::" +:+ i +:+ ":role/" +:+ role);
                                      Condition := None |}) ids)
                    (assume_roles a)
             /\ mp_PolicyDocument kw = DocPolicy p)
    /\ (assume model = None ->
        forall file : string,
          policy_file model = Some file ->
          exists j : json,
            render (set_current_account account c) policy_name model = ok j
            /\ mp_PolicyDocument kw = DocJson j).
Proof.
  pose proof (policy_account_step_registered render policy_name model account c)
    as Hstep.
  cbn zeta in Hstep; rewrite Hstep in Hprocessed; clear Hstep.
  set (c1 := set_current_account account c) in *.
  destruct (policy_document_of render policy_name model c1) as [e|doc] eqn:Hdoc;
    [discriminate|].
  destruct (library_check c1 _) as [e|u]; [discriminate|].
  injection Hprocessed as <-.
  eexists; split.
  { now rewrite registered_template_of_eq by reflexivity. }
  cbn [managed_policy_kw_args mp_PolicyDocument].
  unfold policy_document_of in Hdoc.
  destruct (assume model) as [a|].
  - split; [|discriminate].
    intros a' Ha; injection Ha as <-.
    destruct (configured_ids c1 _ (search_accounts_configured c1 (assume_accounts a)))
      as [ids Hids].
    pose proof (build_assume_role_policy_document_ids c1 _ ids (assume_roles a) Hids)
      as Hbuild.
    eexists ids, _; split; [exact Hids|split; [exact Hbuild|split; [reflexivity|]]].
    destruct (policy_file model) as [file|].
    + destruct (render c1 policy_name model) as [e|j]; [discriminate|].
      unfold ok in Hdoc; cbn [rbind] in Hdoc.
      rewrite Hbuild in Hdoc; unfold ok in Hdoc; cbn [rbind] in Hdoc.
      now injection Hdoc as <-.
    + unfold ok in Hdoc; cbn [rbind] in Hdoc.
      rewrite Hbuild in Hdoc; unfold ok in Hdoc; cbn [rbind] in Hdoc.
      now injection Hdoc as <-.
  - split; [discriminate|].
    intros _ file Hfile; rewrite Hfile in Hdoc.
    destruct (render c1 policy_name model) as [e|j]; [discriminate|].
    exists j; split; [reflexivity|].
    unfold ok in Hdoc; cbn [rbind] in Hdoc; now injection Hdoc as <-.
Qed.

Lemma policy_account_step_document_witness :
  exists kw : managed_policy_args,
    resources (template_of
                 (snd (policy_account_step empty_object "AssumeAdmin" file_and_assume
                                           "dev" saml_config)) "dev")
    = resources (template_of saml_config "dev")
      ++ [ManagedPolicy (scrub_name "AssumeAdmin") kw]
    /\ (forall a : assume_model,
           assume file_and_assume = Some a ->
           exists (ids : list string) (p : policy),
             Forall2 (fun name i => assoc name (account_map_ids saml_config) = Some i)
                     (search_accounts saml_config (assume_accounts a)) ids
             /\ build_assume_role_policy_document (set_current_account "dev" saml_config)
                  (search_accounts saml_config (assume_accounts a)) (assume_roles a) = ok p
             /\ Statement p
                = List.flat_map
                    (fun role =>
                       List.map
                         (fun i => {| Effect := "Allow";
                                      Principal := None;
                                      Action := "sts:AssumeRole";
                                      Resource :=
                                        Some ("arn:aws:iam::" +:+ i +:+ ":role/" +:+ role);
                                      Condition := None |}) ids)
                    (assume_roles a)
             /\ mp_PolicyDocument kw = DocPolicy p)
    /\ (assume file_and_assume = None ->
        forall file : string,
          policy_file file_and_assume = Some file ->
          exists j : json,
            empty_object (set_current_account "dev" saml_config) "AssumeAdmin"
                         file_and_assume = ok j
            /\ mp_PolicyDocument kw = DocJson j).
Proof.
  apply (policy_account_step_document empty_object "AssumeAdmin" file_and_assume
                                      "dev" saml_config).
  reflexivity.
Defined.

Lemma library_check_not_dict (c : config) (title : string) (kw : managed_policy_args) :
  is_dict (mp_PolicyDocument kw) = false ->
  exists e, library_check c (ManagedPolicy title kw) = raise e
            /\ (e = NotAlphanumeric title \/ e = PolicyDocumentType title).
Proof.
  intros Hdoc; unfold library_check, new_resource; cbn [resource_title].
  destruct (title_refused title); cbn [rbind raise]; [eauto|].
  rewrite Hdoc; cbn [rbind raise]; eauto.
Qed.

(** C10.  A policy with neither [policy_file] nor [assume] is not registered
    with the empty string as its document: the constructor of the managed
    policy refuses a document that is no dictionary, so that the step
    raises and the account gets no document. *)
Theorem policy_without_document_is_refused :
  policy_file no_policy = None
  /\ assume no_policy = None
  /\ policy_account_step no_files "Empty" no_policy "prod" prod_config
     = (raise (PolicyDocumentType "Empty"), set_current_account "prod" prod_config)
  /\ template (snd (policy_account_step no_files "Empty" no_policy "prod" prod_config))
       !! "prod" = None.
Proof. repeat split. Qed.

(** X21.  A policy with neither [policy_file] nor [assume] is never
    registered, whatever the configuration, the account and its name: its
    step hands the empty string to the constructor of the managed policy,
    which raises, for the title or for the type of the document, and the
    step leaves every document as it was. *)
Theorem policy_without_document_never_registered :
  forall (render : config -> string -> policy_model -> result json)
         (policy_name : string) (model : policy_model) (account : string)
         (c : config),
    policy_file model = None ->
    assume model = None ->
    exists e : error,
      policy_account_step render policy_name model account c
      = (raise e, set_current_account account c)
      /\ (e = NotAlphanumeric (scrub_name policy_name)
          \/ e = PolicyDocumentType (scrub_name policy_name))
      /\ template (snd (policy_account_step render policy_name model account c))
         = template c.
Proof.
  intros render policy_name model account c Hfile Hassume.
  pose proof (policy_account_step_registered render policy_name model account c)
    as Hstep.
  cbn zeta in Hstep; rewrite Hstep; clear Hstep.
  unfold policy_document_of; rewrite Hfile, Hassume.
  unfold ok; cbn [rbind].
  destruct (library_check_not_dict (set_current_account account c)
              (scrub_name policy_name)
              (managed_policy_kw_args (set_current_account account c) policy_name
                 (DocStr EmptyString) model
                 (names_policies (names (global (tree c))))) eq_refl)
    as (e & -> & He).
  exists e; repeat split; exact He.
Qed.

Lemma policy_without_document_never_registered_witness :
  exists e : error,
    policy_account_step no_files "Empty" no_policy "prod" prod_config
    = (raise e, set_current_account "prod" prod_config)
    /\ (e = NotAlphanumeric (scrub_name "Empty")
        \/ e = PolicyDocumentType (scrub_name "Empty"))
    /\ template (snd (policy_account_step no_files "Empty" no_policy "prod" prod_config))
       = template prod_config.
Proof.
  apply (policy_without_document_never_registered
           no_files "Empty" no_policy "prod" prod_config); reflexivity.
Defined.

Example policy_file_and_assume :
  resources (template_of
               (snd (policy_account_step empty_object "AssumeAdmin" file_and_assume
                                         "dev" saml_config)) "dev")
  = [ ManagedPolicy "AssumeAdmin"
        {| mp_ManagedPolicyName := None;
           mp_Description := "Managed Policy AssumeAdmin";
           mp_PolicyDocument :=
             DocPolicy
               {| Version := "2012-10-17";
                  Statement :=
                    [ build_sts_statement "111111111111" "Admin";
                      build_sts_statement "222222222222" "Admin" ] |};
           mp_Groups := []; mp_Roles := []; mp_Users := [];
           mp_DeletionPolicy := None |} ].
Proof. reflexivity. Qed.

(** With a file that cannot be rendered the step raises, also when the
    model has the assume shorthand. *)
Example policy_file_missing :
  fst (policy_account_step no_files "AssumeAdmin" file_and_assume "dev" saml_config)
  = raise (TemplateError "admin.j2" "No such file or directory").
Proof. reflexivity. Qed.

(** The second scenario of the specification, through the step of the
    policy: one statement, on the role [Admin] of the account [prod]. *)
Example policy_assume_admin :
  resources (template_of
               (snd (policy_account_step no_files "AssumeAdmin" assume_admin "prod"
                                         prod_config)) "prod")
  = [ ManagedPolicy "AssumeAdmin"
        {| mp_ManagedPolicyName := None;
           mp_Description := "Managed Policy AssumeAdmin";
           mp_PolicyDocument :=
             DocPolicy
               {| Version := "2012-10-17";
                  Statement :=
                    [ {| Effect := "Allow";
                         Principal := None;
                         Action := "sts:AssumeRole";
                         Resource := Some "arn:aws:iam::111111111111:role/Admin";
                         Condition := None |} ] |};
           mp_Groups := []; mp_Roles := []; mp_Users := [];
           mp_DeletionPolicy := None |} ].
Proof. reflexivity. Qed.

(** The third scenario: a user that refers to a managed policy declared
    nowhere stops the run with the error that names the user and the
    policy, and no document has changed. *)
Example user_unknown_managed_policy :
  user_account_step "alice"
    {| user_groups := None; user_managed_policies := Some ["Missing"];
       user_password := None; user_in_accounts := None;
       user_retain_on_delete := None |} "prod" policies_config
  = (raise (UnknownManagedPolicy "alice" "Missing"),
     set_current_account "prod" policies_config).
Proof. reflexivity. Qed.

(** * Further properties of the builder *)

(** ** The scrubber and the logical ids *)

Lemma keep_append (p : ascii -> bool) (a b : string) :
  Re.keep p (a +:+ b) = Re.keep p a +:+ Re.keep p b.
Proof.
  induction a as [|ch a IH]; simpl.
  - reflexivity.
  - destruct (p ch); simpl; now rewrite IH.
Qed.

Lemma scrub_name_append (a b : string) :
  scrub_name (a +:+ b) = scrub_name a +:+ scrub_name b.
Proof. rewrite !scrub_name_keep; apply keep_append. Qed.

(** X1.  Scrubbing distributes over concatenation, so the logical id of a
    role, a group, a user or an instance profile is the scrubbed entity name
    followed by the suffix of its type, which scrubbing leaves as it is. *)
Theorem scrub_name_concatenation :
  forall a b name : string,
    scrub_name (a +:+ b) = scrub_name a +:+ scrub_name b
    /\ scrub_name (name +:+ "Role") = scrub_name name +:+ "Role"
    /\ scrub_name (name +:+ "Group") = scrub_name name +:+ "Group"
    /\ scrub_name (name +:+ "User") = scrub_name name +:+ "User"
    /\ scrub_name (name +:+ "InstanceProfile") = scrub_name name +:+ "InstanceProfile".
Proof.
  intros a b name; repeat split; apply scrub_name_append.
Qed.

Lemma keep_length (p : ascii -> bool) (s : string) :
  String.length (Re.keep p s) <= String.length s.
Proof.
  induction s as [|ch s IH]; cbn [Re.keep String.length]; [lia|].
  destruct (p ch); cbn [String.length]; lia.
Qed.

Lemma keep_fixed (p : ascii -> bool) (s : string) :
  Re.keep p s = s -> Re.all_chars p s = true.
Proof.
  induction s as [|ch s IH]; cbn [Re.keep Re.all_chars]; [reflexivity|].
  destruct (p ch) eqn:Hp.
  - intros H; injection H as H; now rewrite (IH H).
  - intros H.
    pose proof (keep_length p s) as Hlen.
    rewrite H in Hlen; cbn [String.length] in Hlen; lia.
Qed.

(** X2.  The scrubber never makes a name longer.  It returns a name made of
    characters of [[A-Za-z0-9]] as it is, and an ASCII name that it returns
    as it is has no other character. *)
Theorem scrub_name_fixed_points :
  forall x : string,
    String.length (scrub_name x) <= String.length x
    /\ (Re.all_chars alphanumeric x = true -> scrub_name x = x)
    /\ (Re.all_chars ascii_only x = true ->
        scrub_name x = x -> Re.all_chars alphanumeric x = true).
Proof.
  intros x; repeat split.
  - rewrite scrub_name_keep; apply keep_length.
  - intros Hall; rewrite scrub_name_keep; apply keep_all_chars.
    apply (all_chars_impl alphanumeric); [|exact Hall].
    intros ch Hch; now rewrite (alphanumeric_not_removed ch Hch).
  - intros Hascii; rewrite (scrub_name_ascii x Hascii); apply keep_fixed.
Qed.

(** X18.  On an ASCII name the scrubber removes every character outside
    [[A-Za-z0-9]] and keeps the others in their order, so that its result
    is alphanumeric; and on every name, ASCII or not, scrubbing twice is
    scrubbing once. *)
Theorem scrub_name_ascii_names :
  forall x : string,
    (Re.all_chars ascii_only x = true ->
     scrub_name x = scrub x
     /\ Re.all_chars alphanumeric (scrub_name x) = true)
    /\ scrub_name (scrub_name x) = scrub_name x.
Proof.
  intros x; split; [|apply scrub_name_idempotent].
  intros Hascii; rewrite (scrub_name_ascii x Hascii); split; [reflexivity|].
  apply all_chars_keep.
Qed.

(** ** Imports and managed-policy references *)

Lemma parse_imports_map (c : config) (element_list : list string) :
  parse_imports c element_list = List.map expand_import element_list.
Proof. unfold parse_imports; now rewrite imports_loop_map. Qed.

Lemma expand_import_verbatim (entry : string) :
  ~ starts_with "import:" entry -> expand_import entry = Str entry.
Proof.
  intros Hno; unfold expand_import.
  apply match_literal_group_none in Hno; now rewrite Hno.
Qed.

(** X3.  The import expansion never fails and keeps the length and the
    order of its list: the expansion of a concatenation is the
    concatenation of the expansions, and a list without an import entry
    comes back entry for entry. *)
Theorem parse_imports_lists :
  forall (c : config) (l1 l2 : list string),
    parse_imports c (l1 ++ l2) = parse_imports c l1 ++ parse_imports c l2
    /\ length (parse_imports c l1) = length l1
    /\ (Forall (fun entry => ~ starts_with "import:" entry) l1 ->
        parse_imports c l1 = List.map Str l1).
Proof.
  intros c l1 l2; rewrite !parse_imports_map; repeat split.
  - apply List.map_app.
  - apply length_map.
  - intros Hplain; apply List.map_ext_in; intros entry Hin.
    apply expand_import_verbatim.
    now apply (proj1 (List.Forall_forall _ _) Hplain).
Qed.

Lemma map_result_app {A B : Type} (f : A -> result B) (l1 l2 : list A) :
  map_result f (l1 ++ l2)
  = match map_result f l1 with
    | inl e => inl e
    | inr ys1 =>
        match map_result f l2 with
        | inl e => inl e
        | inr ys2 => inr (ys1 ++ ys2)
        end
    end.
Proof.
  induction l1 as [|x l1 IH]; cbn [app map_result].
  - unfold ok; destruct (map_result f l2); reflexivity.
  - destruct (f x) as [e|y]; cbn [rbind]; [reflexivity|].
    rewrite IH.
    destruct (map_result f l1) as [e|ys1]; cbn [rbind]; [reflexivity|].
    destruct (map_result f l2) as [e|ys2]; reflexivity.
Qed.

(** X4.  The resolver works through its references in order and stops at
    the first that is refused: on a concatenation it gives the error of the
    first part if that part fails, else the error of the second part if
    that fails, else the values of the first part followed by those of the
    second. *)
Theorem parse_managed_policies_concatenation :
  forall (c : config) (refs1 refs2 : list string) (owner : string),
    parse_managed_policies c (refs1 ++ refs2) owner
    = match parse_managed_policies c refs1 owner with
      | inl e => raise e
      | inr vs1 =>
          match parse_managed_policies c refs2 owner with
          | inl e => raise e
          | inr vs2 => ok (vs1 ++ vs2)
          end
      end.
Proof.
  intros c refs1 refs2 owner.
  rewrite !parse_managed_policies_map; apply map_result_app.
Qed.

Lemma resolve_ref_explicit (c c' : config) (owner owner' ref : string) :
  starts_with "arn:aws" ref \/ starts_with "import:" ref ->
  exists v, resolve_ref c owner ref = ok v /\ resolve_ref c' owner' ref = ok v.
Proof.
  unfold resolve_ref; intros [[rest Harn] | [rest Himp]].
  - apply match_literal_append in Harn; rewrite Harn; eauto.
  - subst ref; rewrite import_not_literal.
    assert (Hg : Re.match_literal_group "import:" ("import:" +:+ rest)
                 = Some (Re.dot_star rest))
      by (apply match_literal_group_some; eauto).
    rewrite Hg; eauto.
Qed.

(** X5.  A list of references that are all ARNs or imports is resolved
    without a look at the configuration: it never fails, it gives one value
    per reference, and it gives the same values under any configuration,
    current account and owner. *)
Theorem parse_managed_policies_explicit
        (refs : list string)
        (Hexplicit : Forall (fun ref => starts_with "arn:aws" ref
                                        \/ starts_with "import:" ref) refs) :
  exists vs : list value,
    length vs = length refs
    /\ forall (c : config) (owner : string),
         parse_managed_policies c refs owner = ok vs.
Proof.
  induction Hexplicit as [|ref refs Href _ [vs [Hlen Hvs]]].
  - exists []; split; [reflexivity|]; intros c owner; reflexivity.
  - destruct (resolve_ref_explicit prod_config prod_config EmptyString EmptyString
                                   ref Href) as (v & Hv & _).
    exists (v :: vs); split; [cbn [length]; now rewrite Hlen|].
    intros c owner; rewrite parse_managed_policies_map; cbn [map_result].
    destruct (resolve_ref_explicit prod_config c EmptyString owner ref Href)
      as (v' & Hv' & Hc).
    rewrite Hv in Hv'; injection Hv' as <-.
    rewrite Hc; unfold ok; cbn [rbind].
    rewrite <- parse_managed_policies_map, Hvs; reflexivity.
Qed.

Lemma parse_managed_policies_explicit_witness :
  exists vs : list value,
    length vs = length ["arn:aws:iam::aws:policy/ReadOnlyAccess"; "import:Shared"]
    /\ forall (c : config) (owner : string),
         parse_managed_policies c
           ["arn:aws:iam::aws:policy/ReadOnlyAccess"; "import:Shared"] owner = ok vs.
Proof.
  apply (parse_managed_policies_explicit
           ["arn:aws:iam::aws:policy/ReadOnlyAccess"; "import:Shared"]).
  constructor; [left; eexists; reflexivity|].
  constructor; [right; eexists; reflexivity|].
  constructor.
Defined.

(** ** The assume shorthand at its edges *)

Lemma assume_accounts_loop_prefix (c : config) (role : string)
      (done ids : list string) (later : list string) :
  Forall2 (fun a i => assoc a (account_map_ids c) = Some i) done ids ->
  forall statements,
    assume_accounts_loop c role (done ++ later) statements
    = assume_accounts_loop c role later
        (statements ++ List.map (fun i => build_sts_statement i role) ids).
Proof.
  induction 1 as [|a i done' ids' Hi _ IH]; intros statements;
    cbn [app assume_accounts_loop List.map].
  - now rewrite app_nil_r.
  - unfold map_account; rewrite Hi; unfold ok; cbn [rbind].
    rewrite IH, <- app_assoc; reflexivity.
Qed.

Lemma assume_roles_loop_no_account (c : config) (roles : list string) :
  forall statements, assume_roles_loop c [] roles statements = ok statements.
Proof.
  induction roles as [|role roles IH]; intros statements;
    cbn [assume_roles_loop assume_accounts_loop].
  - reflexivity.
  - unfold ok at 1; cbn [rbind]; apply IH.
Qed.

(** X6.  The assume document is empty, and the builder does not fail, when
    there is no account or no role, whatever the other list holds.  With at
    least one role the builder fails at the first account, in list order,
    that is not configured, with the unknown-account error for it. *)
Theorem build_assume_role_policy_document_edges :
  forall (c : config) (accounts roles : list string),
    (accounts = [] \/ roles = [] ->
     build_assume_role_policy_document c accounts roles
     = ok {| Version := "2012-10-17"; Statement := [] |})
    /\ (forall (done : list string) (a : string) (later : list string),
           accounts = done ++ a :: later ->
           Forall (fun a' => has_key a' (account_map_ids c) = true) done ->
           has_key a (account_map_ids c) = false ->
           roles <> [] ->
           build_assume_role_policy_document c accounts roles = raise (UnknownAccount a)).
Proof.
  intros c accounts roles; split.
  - intros [-> | ->]; unfold build_assume_role_policy_document.
    + now rewrite assume_roles_loop_no_account.
    + reflexivity.
  - intros done a later -> Hdone Ha Hroles.
    destruct roles as [|role roles']; [contradiction|].
    destruct (configured_ids c done Hdone) as [ids Hids].
    unfold build_assume_role_policy_document; cbn [assume_roles_loop].
    rewrite (assume_accounts_loop_prefix c role done ids (a :: later) Hids).
    cbn [assume_accounts_loop]; unfold map_account.
    unfold has_key in Ha.
    destruct (assoc a (account_map_ids c)); [discriminate|reflexivity].
Qed.

(** ** The trust builder: failures, concatenation, shape *)

Lemma resolve_trusts_map (c : config) (trusts : list string) :
  resolve_trusts c trusts = map_result (resolve_trust c) trusts.
Proof.
  induction trusts as [|trust rest IH]; cbn [resolve_trusts map_result];
    [reflexivity|now rewrite IH].
Qed.

(** A specifier is refused exactly when the account search finds nothing
    for it, it is not the SAML provider and the dotted pattern does not
    match; the error then names it. *)
Lemma resolve_trust_raise (c : config) (trust : string) (e : error) :
  resolve_trust c trust = raise e <->
  search_accounts c [trust] = []
  /\ saml_provider c <> Some trust
  /\ Re.match_dotted trust = false
  /\ e = UnresolvedTrust trust.
Proof.
  unfold resolve_trust; split.
  - destruct (search_accounts c [trust]) as [|first others] eqn:Hsearch.
    + destruct (saml_provider c) as [provider|].
      * destruct (String.eqb trust provider) eqn:Heq; [discriminate|].
        apply String.eqb_neq in Heq.
        destruct (Re.match_dotted trust); [discriminate|].
        intros H; injection H as <-; repeat split; congruence.
      * destruct (Re.match_dotted trust); [discriminate|].
        intros H; injection H as <-; repeat split; congruence.
    + pose proof (search_accounts_configured c [trust]) as Hconf.
      rewrite Hsearch in Hconf; inversion Hconf as [|? ? Hfirst _]; subst.
      apply has_key_assoc in Hfirst as [i Hi].
      unfold account_map_ids_get; rewrite Hi; discriminate.
  - intros (-> & Hsaml & -> & ->).
    destruct (saml_provider c) as [provider|]; [|reflexivity].
    destruct (String.eqb trust provider) eqn:Heq; [|reflexivity].
    apply String.eqb_eq in Heq; congruence.
Qed.

Lemma trust_kind_some (c : config) (trust : string) :
  trust_kind c trust <> None <-> exists p, resolve_trust c trust = ok p.
Proof.
  unfold trust_kind; destruct (resolve_trust c trust) as [e|p]; split.
  - contradiction.
  - intros [p Hp]; discriminate.
  - eauto.
  - discriminate.
Qed.

(** X7.  The trust builder fails exactly when some specifier finds no
    account, is not the SAML provider and does not match the dotted
    pattern; it then raises the unresolved-trust error for the first such
    specifier in list order, and it raises nothing else. *)
Theorem build_role_trust_failure :
  forall (c : config) (trusts : list string) (e : error),
    build_role_trust c trusts = raise e <->
    exists (done : list string) (trust : string) (later : list string),
      trusts = done ++ trust :: later
      /\ Forall (fun t => trust_kind c t <> None) done
      /\ search_accounts c [trust] = []
      /\ saml_provider c <> Some trust
      /\ Re.match_dotted trust = false
      /\ e = UnresolvedTrust trust.
Proof.
  intros c trusts e.
  rewrite build_role_trust_resolve, resolve_trusts_map.
  assert (Hbind : (try ps <- map_result (resolve_trust c) trusts;
                   ok {| Version := "2012-10-17";
                         Statement := List.map sts_statement (List.filter is_sts ps)
                                      ++ List.map saml_statement
                                           (List.filter is_saml ps) |}) = raise e
                  <-> map_result (resolve_trust c) trusts = raise e).
  { destruct (map_result (resolve_trust c) trusts); cbn [rbind]; split;
      intros H; try discriminate; injection H as ->; reflexivity. }
  rewrite Hbind, map_result_raise; split.
  - intros (done & ps & trust & later & -> & Hdone & Htrust).
    apply resolve_trust_raise in Htrust as (Hs & Hp & Hd & ->).
    exists done, trust, later; repeat split; trivial.
    clear -Hdone; induction Hdone as [|t p done ps Hp _ IH]; constructor; trivial.
    apply trust_kind_some; eauto.
  - intros (done & trust & later & -> & Hdone & Hs & Hp & Hd & ->).
    assert (Hps : exists ps, Forall2 (fun t p => resolve_trust c t = ok p) done ps).
    { clear -Hdone; induction Hdone as [|t done Ht _ [ps IH]].
      - exists []; constructor.
      - apply trust_kind_some in Ht as [p Hp].
        exists (p :: ps); now constructor. }
    destruct Hps as [ps Hps].
    exists done, ps, trust, later; repeat split; trivial.
    now apply resolve_trust_raise.
Qed.

(** X8.  When the builder accepts two trust lists it accepts their
    concatenation, and the statements of the concatenation are those of the
    two documents taken together, up to order: none is lost, none is
    added. *)
Theorem build_role_trust_concatenation
        (c : config) (trusts1 trusts2 : list string) (doc1 doc2 : policy)
        (Hfirst : build_role_trust c trusts1 = ok doc1)
        (Hsecond : build_role_trust c trusts2 = ok doc2) :
  exists doc : policy,
    build_role_trust c (trusts1 ++ trusts2) = ok doc
    /\ Statement doc ≡ₚ Statement doc1 ++ Statement doc2
    /\ length (Statement doc) = length trusts1 + length trusts2.
Proof.
  rewrite build_role_trust_resolve, resolve_trusts_map in Hfirst, Hsecond |- *.
  rewrite map_result_app.
  destruct (map_result (resolve_trust c) trusts1) as [e|ps1] eqn:H1;
    cbn [rbind] in Hfirst; [discriminate|].
  destruct (map_result (resolve_trust c) trusts2) as [e|ps2] eqn:H2;
    cbn [rbind] in Hsecond; [discriminate|].
  injection Hfirst as <-; injection Hsecond as <-.
  cbn [rbind]; eexists; split; [reflexivity|]; cbn [Statement].
  apply map_result_ok, Forall2_length in H1.
  apply map_result_ok, Forall2_length in H2.
  split.
  - rewrite !List.filter_app, !List.map_app, <- !app_assoc.
    apply Permutation_app_head, Permutation_app_swap_app.
  - rewrite length_app, !length_map, H1, H2.
    assert (Hsplit : forall ps,
               length (List.filter is_sts ps) + length (List.filter is_saml ps)
               = length ps).
    { clear; induction ps as [|p l IH]; cbn [List.filter length]; [reflexivity|].
      unfold is_saml in *; destruct (is_sts p); cbn [negb length] in *; lia. }
    rewrite Hsplit; apply length_app.
Qed.

Lemma build_role_trust_concatenation_witness :
  exists doc : policy,
    build_role_trust saml_config (["corp-idp"; "prod"] ++ ["ec2.amazonaws.com"]) = ok doc
    /\ Statement doc
       ≡ₚ [ sts_statement (AWS "arn:aws:iam::111111111111:root");
            saml_statement
              (Federated "arn:aws:iam::111111111111:saml-provider/corp-idp") ]
          ++ [ sts_statement (Service "ec2.amazonaws.com") ]
    /\ length (Statement doc) = length ["corp-idp"; "prod"] + length ["ec2.amazonaws.com"].
Proof.
  apply (build_role_trust_concatenation
           saml_config ["corp-idp"; "prod"] ["ec2.amazonaws.com"]
           {| Version := "2012-10-17";
              Statement :=
                [ sts_statement (AWS "arn:aws:iam::111111111111:root");
                  saml_statement
                    (Federated "arn:aws:iam::111111111111:saml-provider/corp-idp") ] |}
           {| Version := "2012-10-17";
              Statement := [ sts_statement (Service "ec2.amazonaws.com") ] |});
    reflexivity.
Defined.

Lemma assume_accounts_loop_Forall (P : statement -> Prop) (c : config) (role : string)
      (accounts : list string) :
  (forall i, P (build_sts_statement i role)) ->
  forall statements statements',
    assume_accounts_loop c role accounts statements = ok statements' ->
    Forall P statements -> Forall P statements'.
Proof.
  intros HP; induction accounts as [|a accounts IH]; intros st st';
    cbn [assume_accounts_loop].
  - intros H; injection H as <-; trivial.
  - destruct (map_account c a) as [e|i]; cbn [rbind]; [discriminate|].
    intros H Hst; apply (IH _ _ H).
    apply Forall_app; split; [exact Hst|]; constructor; [apply HP|constructor].
Qed.

Lemma assume_roles_loop_Forall (P : statement -> Prop) (c : config)
      (accounts roles : list string) :
  (forall i role, P (build_sts_statement i role)) ->
  forall statements statements',
    assume_roles_loop c accounts roles statements = ok statements' ->
    Forall P statements -> Forall P statements'.
Proof.
  intros HP; induction roles as [|role roles IH]; intros st st';
    cbn [assume_roles_loop].
  - intros H; injection H as <-; trivial.
  - destruct (assume_accounts_loop c role accounts st) as [e|st1] eqn:H1;
      cbn [rbind]; [discriminate|].
    intros H Hst; apply (IH _ _ H).
    apply (assume_accounts_loop_Forall P c role accounts (fun i => HP i role)
                                       st st1 H1 Hst).
Qed.

(** X9.  Both builders only ever grant: every document they return has the
    version [2012-10-17] and nothing but [Allow] statements.  A statement
    of a trust document names a principal and no resource; a statement of
    an assume document names a resource and no principal, has the action
    [sts:AssumeRole] and no condition. *)
Theorem policy_documents_allow_only :
  forall c : config,
    (forall (trusts : list string) (doc : policy),
        build_role_trust c trusts = ok doc ->
        Version doc = "2012-10-17"
        /\ Forall (fun s => Effect s = "Allow"
                            /\ Principal s <> None
                            /\ Resource s = None) (Statement doc))
    /\ (forall (accounts roles : list string) (doc : policy),
           build_assume_role_policy_document c accounts roles = ok doc ->
           Version doc = "2012-10-17"
           /\ Forall (fun s => Effect s = "Allow"
                               /\ Action s = "sts:AssumeRole"
                               /\ Principal s = None
                               /\ Resource s <> None
                               /\ Condition s = None) (Statement doc)).
Proof.
  intros c; split.
  - intros trusts doc; rewrite build_role_trust_resolve.
    destruct (resolve_trusts c trusts) as [e|ps]; cbn [rbind]; [discriminate|].
    intros H; injection H as <-; split; [reflexivity|]; cbn [Statement].
    apply Forall_app; split; apply List.Forall_forall; intros s Hin;
      apply List.in_map_iff in Hin as (p & <- & _); repeat split; discriminate.
  - intros accounts roles doc; unfold build_assume_role_policy_document.
    destruct (assume_roles_loop c accounts roles []) as [e|st] eqn:Hloop;
      cbn [rbind]; [discriminate|].
    intros H; injection H as <-; split; [reflexivity|]; cbn [Statement].
    apply (assume_roles_loop_Forall _ c accounts roles) with (statements := []);
      [|exact Hloop|constructor].
    intros i role; repeat split; discriminate.
Qed.

(** ** What an assembler call registers *)

Lemma role_kw_args_options (c : config) (name : string) (model : role_model)
      (named : bool) (kw : role_args) :
  role_kw_args c name model named = ok kw ->
  role_RoleName kw = opt_name named name
  /\ role_DeletionPolicy kw = deletion_policy (role_retain_on_delete model).
Proof.
  unfold role_kw_args.
  destruct (trusts model) as [trust_list|]; [|discriminate].
  unfold ok at 1; cbn [rbind].
  destruct (build_role_trust c trust_list) as [e|doc]; cbn [rbind]; [discriminate|].
  destruct (managed_policy_arns c (role_managed_policies model) name) as [e|arns];
    cbn [rbind]; [discriminate|].
  intros H; injection H as <-; split; reflexivity.
Qed.

Lemma group_kw_args_options (c : config) (name : string) (model : group_model)
      (named : bool) (kw : group_args) :
  group_kw_args c name model named = ok kw ->
  group_GroupName kw = opt_name named name
  /\ group_DeletionPolicy kw = deletion_policy (group_retain_on_delete model).
Proof.
  unfold group_kw_args.
  destruct (managed_policy_arns c (group_managed_policies model) name) as [e|arns];
    cbn [rbind]; [discriminate|].
  intros H; injection H as <-; split; reflexivity.
Qed.

Lemma user_kw_args_options (c : config) (name : string) (model : user_model)
      (named : bool) (kw : user_args) :
  user_kw_args c name model named = ok kw ->
  user_UserName kw = opt_name named name
  /\ user_DeletionPolicy kw = deletion_policy (user_retain_on_delete model).
Proof.
  unfold user_kw_args.
  destruct (managed_policy_arns c (user_managed_policies model) name) as [e|arns];
    cbn [rbind]; [discriminate|].
  intros H; injection H as <-; split; reflexivity.
Qed.

(** The resource and the output of a call that succeeds, by their title,
    name, deletion policy and export. *)
Lemma run_call_registered (call : assembler_call) (c : config) :
  (exists e, run_call call c = (raise e, c))
  \/ (exists r o,
         run_call call c = (ok tt, registered c r [o])
         /\ resource_title r = identifier_of call
         /\ resource_name r = opt_name (named_of call) (entity_name_of call)
         /\ resource_deletion_policy r = deletion_policy (retain_on_delete_of call)
         /\ value_target (out_Value o) = Some (identifier_of call)
         /\ out_title o = identifier_of call +:+ export_suffix call
         /\ out_Export o = "${AWS::StackName}-" +:+ out_title o).
Proof.
  destruct call as [name doc model named | name model named
                    | name model named | name model named
                    | name model named];
    cbn [run_call identifier_of export_suffix named_of entity_name_of
         retain_on_delete_of].
  - rewrite add_managed_policy_registered.
    destruct (library_check c _); [left; eauto|right].
    eexists _, _; split; [reflexivity|repeat split].
  - rewrite create_instance_profile_registered.
    destruct (library_check c _); [left; eauto|right].
    eexists _, _; split; [reflexivity|repeat split].
  - rewrite add_role_registered.
    destruct (role_kw_args c name model named) as [e|kw] eqn:Hkw; [left; eauto|].
    destruct (library_check c _); [left; eauto|right].
    apply role_kw_args_options in Hkw as [Hname Hdel].
    eexists _, _; split; [reflexivity|repeat split; assumption].
  - rewrite add_group_registered.
    destruct (group_kw_args c name model named) as [e|kw] eqn:Hkw; [left; eauto|].
    destruct (library_check c _); [left; eauto|right].
    apply group_kw_args_options in Hkw as [Hname Hdel].
    eexists _, _; split; [reflexivity|repeat split; try assumption].
    cbn [resource_title]; apply scrub_name_idempotent.
  - rewrite add_user_registered.
    destruct (user_kw_args c name model named) as [e|kw] eqn:Hkw; [left; eauto|].
    destruct (library_check c _); [left; eauto|right].
    apply user_kw_args_options in Hkw as [Hname Hdel].
    eexists _, _; split; [reflexivity|repeat split; assumption].
Qed.

(** X10.  When an assembler call succeeds, the resource it registers has
    the scrubbed identifier of the call as its logical id, and every output
    it appends points at that same logical id, is titled with the
    identifier followed by the suffix of the type, and is exported under
    the stack-name prefix followed by its title.  For a group, whose title
    is scrubbed twice, the two still agree. *)
Theorem assembler_output_points_at_resource
        (call : assembler_call) (c c' : config)
        (Hassembled : run_call call c = (ok tt, c')) :
  exists (r : resource) (os : list Output),
    resources (template_of c' (current_account c))
    = resources (template_of c (current_account c)) ++ [r]
    /\ outputs (template_of c' (current_account c))
       = outputs (template_of c (current_account c)) ++ os
    /\ resource_title r = identifier_of call
    /\ Forall (fun o => value_target (out_Value o) = Some (resource_title r)
                        /\ out_title o = identifier_of call +:+ export_suffix call
                        /\ out_Export o = "${AWS::StackName}-" +:+ out_title o) os.
Proof.
  destruct (run_call_registered call c)
    as [[e He] | (r & o & Hrun & Htitle & _ & _ & Htarget & Hotitle & Hexport)].
  - rewrite He in Hassembled; discriminate.
  - rewrite Hrun in Hassembled; injection Hassembled as <-.
    rewrite registered_template_of; cbn [resources outputs].
    exists r; eexists; repeat split; trivial.
    destruct (outputs_enabled c); constructor; [|constructor].
    rewrite Htitle; auto.
Qed.

Lemma assembler_output_points_at_resource_witness :
  exists (r : resource) (os : list Output),
    resources (template_of
                 (snd (run_call (Call_add_group "dev-ops" 
                                   {| group_managed_policies := None;
                                      group_in_accounts := None;
                                      group_retain_on_delete := None |} true)
                                saml_config))
                 (current_account saml_config))
    = resources (template_of saml_config (current_account saml_config)) ++ [r]
    /\ outputs (template_of
                  (snd (run_call (Call_add_group "dev-ops" 
                                    {| group_managed_policies := None;
                                       group_in_accounts := None;
                                       group_retain_on_delete := None |} true)
                                 saml_config))
                  (current_account saml_config))
       = outputs (template_of saml_config (current_account saml_config)) ++ os
    /\ resource_title r
       = identifier_of (Call_add_group "dev-ops" 
                          {| group_managed_policies := None;
                             group_in_accounts := None;
                             group_retain_on_delete := None |} true)
    /\ Forall (fun o => value_target (out_Value o) = Some (resource_title r)
                        /\ out_title o
                           = identifier_of (Call_add_group "dev-ops" 
                                              {| group_managed_policies := None;
                                                 group_in_accounts := None;
                                                 group_retain_on_delete := None |} true)
                             +:+ export_suffix
                                   (Call_add_group "dev-ops" 
                                      {| group_managed_policies := None;
                                         group_in_accounts := None;
                                         group_retain_on_delete := None |} true)
                        /\ out_Export o = "${AWS::StackName}-" +:+ out_title o) os.
Proof.
  apply (assembler_output_points_at_resource
           (Call_add_group "dev-ops" 
              {| group_managed_policies := None;
                 group_in_accounts := None;
                 group_retain_on_delete := None |} true)
           saml_config).
  reflexivity.
Defined.

(** X11.  When an assembler call succeeds, the resource it registers has an
    explicit name exactly when the naming flag of the call is set, and the
    name is then the entity name as written, not scrubbed; an instance
    profile is named after its role.  The resource has the deletion policy
    [Retain] exactly when the model has [retain_on_delete] with the value
    [True], and no deletion policy otherwise. *)
Theorem assembler_name_and_retention
        (call : assembler_call) (c c' : config)
        (Hassembled : run_call call c = (ok tt, c')) :
  exists r : resource,
    resources (template_of c' (current_account c))
    = resources (template_of c (current_account c)) ++ [r]
    /\ (named_of call = true -> resource_name r = Some (entity_name_of call))
    /\ (named_of call = false -> resource_name r = None)
    /\ (retain_on_delete_of call = Some true ->
        resource_deletion_policy r = Some "Retain")
    /\ (retain_on_delete_of call <> Some true -> resource_deletion_policy r = None).
Proof.
  destruct (run_call_registered call c)
    as [[e He] | (r & o & Hrun & _ & Hname & Hdel & _)].
  - rewrite He in Hassembled; discriminate.
  - rewrite Hrun in Hassembled; injection Hassembled as <-.
    rewrite registered_template_of; cbn [resources].
    exists r; split; [reflexivity|].
    rewrite Hname, Hdel; unfold opt_name, deletion_policy.
    repeat split.
    + intros ->; reflexivity.
    + intros ->; reflexivity.
    + intros ->; reflexivity.
    + destruct (retain_on_delete_of call) as [[|]|]; trivial; contradiction.
Qed.

Lemma assembler_name_and_retention_witness :
  exists r : resource,
    resources (template_of
                 (snd (run_call (Call_add_user "alice" alice true) policies_config))
                 (current_account policies_config))
    = resources (template_of policies_config (current_account policies_config)) ++ [r]
    /\ (named_of (Call_add_user "alice" alice true) = true ->
        resource_name r = Some (entity_name_of (Call_add_user "alice" alice true)))
    /\ (named_of (Call_add_user "alice" alice true) = false -> resource_name r = None)
    /\ (retain_on_delete_of (Call_add_user "alice" alice true) = Some true ->
        resource_deletion_policy r = Some "Retain")
    /\ (retain_on_delete_of (Call_add_user "alice" alice true) <> Some true ->
        resource_deletion_policy r = None).
Proof.
  apply (assembler_name_and_retention (Call_add_user "alice" alice true)
                                      policies_config).
  reflexivity.
Defined.

Lemma user_kw_args_fields (c : config) (name : string) (model : user_model)
      (named : bool) (kw : user_args) :
  user_kw_args c name model named = ok kw ->
  match user_managed_policies model with
  | Some refs => parse_managed_policies c refs name = ok (user_ManagedPolicyArns kw)
  | None => user_ManagedPolicyArns kw = []
  end
  /\ user_Groups kw = imports_or_empty c (user_groups model)
  /\ user_LoginProfile kw
     = match user_password model with
       | Some pw => Some {| Password := pw; PasswordResetRequired := true |}
       | None => None
       end
  /\ user_Path kw = "/".
Proof.
  unfold user_kw_args, managed_policy_arns.
  destruct (user_managed_policies model) as [refs|].
  - destruct (parse_managed_policies c refs name) as [e|arns]; cbn [rbind];
      [discriminate|].
    intros H; injection H as <-; repeat split.
  - unfold ok at 1; cbn [rbind].
    intros H; injection H as <-; repeat split.
Qed.

(** X12.  When the resolution of the managed policies of a user fails, the
    assembler of the user raises the error of the resolver and changes no
    document.  When the assembler succeeds, the user it registers has the
    managed policies the resolver returned (none without the key), its
    groups passed through the import expansion, the path [/], and a login
    profile exactly when the model has a password: that password, with a
    reset required. *)
Theorem add_user_outcome :
  forall (UserName : string) (model : user_model) (named : bool) (c : config),
    (forall (refs : list string) (e : error),
        user_managed_policies model = Some refs ->
        parse_managed_policies c refs UserName = raise e ->
        add_user UserName model named c = (raise e, c))
    /\ (forall c' : config,
           add_user UserName model named c = (ok tt, c') ->
           exists kw : user_args,
             resources (template_of c' (current_account c))
             = resources (template_of c (current_account c))
               ++ [User (scrub_name (UserName +:+ "User")) kw]
             /\ match user_managed_policies model with
                | Some refs =>
                    parse_managed_policies c refs UserName
                    = ok (user_ManagedPolicyArns kw)
                | None => user_ManagedPolicyArns kw = []
                end
             /\ Forall2 expands_entry (member_list (user_groups model)) (user_Groups kw)
             /\ user_LoginProfile kw
                = match user_password model with
                  | Some pw => Some {| Password := pw; PasswordResetRequired := true |}
                  | None => None
                  end
             /\ user_Path kw = "/").
Proof.
  intros name model named c; split.
  - intros refs e Hrefs He.
    rewrite add_user_registered; unfold user_kw_args, managed_policy_arns.
    rewrite Hrefs, He; reflexivity.
  - intros c' Hok; rewrite add_user_registered in Hok.
    destruct (user_kw_args c name model named) as [e|kw] eqn:Hkw; [discriminate|].
    destruct (library_check c _); [discriminate|].
    injection Hok as <-.
    apply user_kw_args_fields in Hkw as (Harns & Hgroups & Hlogin & Hpath).
    exists kw; split; [now rewrite registered_template_of|].
    repeat split; trivial.
    rewrite Hgroups; apply imports_or_empty_expands.
Qed.

(** X13.  The assembler of a role checks in a fixed order and changes no
    document when a check fails: a model without [trusts] is a key error,
    whatever its managed policies; an unresolved trust is reported before
    any managed policy is looked at; only then is a managed-policy error
    reported. *)
Theorem add_role_failures :
  forall (RoleName : string) (model : role_model) (named : bool) (c : config),
    (trusts model = None ->
     add_role RoleName model named c = (raise (KeyError "trusts"), c))
    /\ (forall (trust_list : list string) (e : error),
           trusts model = Some trust_list ->
           build_role_trust c trust_list = raise e ->
           add_role RoleName model named c = (raise e, c))
    /\ (forall (trust_list : list string) (doc : policy) (e : error),
           trusts model = Some trust_list ->
           build_role_trust c trust_list = ok doc ->
           managed_policy_arns c (role_managed_policies model) RoleName = raise e ->
           add_role RoleName model named c = (raise e, c)).
Proof.
  intros name model named c.
  rewrite add_role_registered; unfold role_kw_args; repeat split.
  - intros ->; reflexivity.
  - intros ts e -> He; unfold ok; cbn [rbind]; rewrite He; reflexivity.
  - intros ts doc e -> Hdoc He; unfold ok; cbn [rbind].
    rewrite Hdoc; cbn [rbind]; rewrite He; reflexivity.
Qed.

Lemma append_cancel (s a b : string) : s +:+ a = s +:+ b -> a = b.
Proof.
  induction s as [|ch s IH]; simpl; [trivial|].
  intros H; injection H as H; auto.
Qed.

Lemma append_associative (a b c : string) : (a +:+ b) +:+ c = a +:+ (b +:+ c).
Proof.
  induction a as [|ch a IH]; [reflexivity|].
  change (String ch ((a +:+ b) +:+ c) = String ch (a +:+ (b +:+ c))).
  now f_equal.
Qed.

(** X14.  The role and the instance profile that one role gives rise to
    never share a logical id or an output title.  Across kinds the logical
    ids are not kept apart: a managed policy whose name is a role name
    followed by [Role] has the logical id of that role. *)
Theorem logical_ids_of_a_role :
  forall (name : string) (model : role_model) (named : bool)
         (doc : document) (pmodel : policy_model),
    identifier_of (Call_add_role name model named)
    <> identifier_of (Call_create_instance_profile name model named)
    /\ identifier_of (Call_add_role name model named)
       +:+ export_suffix (Call_add_role name model named)
       <> identifier_of (Call_create_instance_profile name model named)
          +:+ export_suffix (Call_create_instance_profile name model named)
    /\ identifier_of (Call_add_managed_policy (name +:+ "Role") doc pmodel named)
       = identifier_of (Call_add_role name model named).
Proof.
  intros name model named doc pmodel; cbn [identifier_of export_suffix].
  rewrite !scrub_name_append; repeat split.
  - intros H; apply append_cancel in H; discriminate.
  - rewrite !append_associative.
    intros H; apply append_cancel in H; discriminate.
Qed.

(** ** The run as a whole *)

Lemma outputs_enabled_tree (c c' : config) :
  tree c' = tree c -> outputs_enabled c' = outputs_enabled c.
Proof. unfold outputs_enabled; now intros ->. Qed.

Lemma grows_refl (c : config) : grows c c.
Proof.
  repeat split; intros account; exists [], [].
  rewrite !app_nil_r; repeat split; now destruct (outputs_enabled c).
Qed.

Lemma grows_trans (c1 c2 c3 : config) : grows c1 c2 -> grows c2 c3 -> grows c1 c3.
Proof.
  intros (Ht & Ha & Hp & Hs & H12) (Ht' & Ha' & Hp' & Hs' & H23).
  repeat split; try congruence.
  intros account.
  destruct (H12 account) as (rs & os & Hr & Ho & Hlen).
  destruct (H23 account) as (rs' & os' & Hr' & Ho' & Hlen').
  exists (rs ++ rs'), (os ++ os').
  rewrite Hr', Hr, Ho', Ho, !app_assoc; repeat split.
  rewrite (outputs_enabled_tree c1 c2 Ht) in Hlen'.
  rewrite !length_app, Hlen, Hlen'; destruct (outputs_enabled c1); reflexivity.
Qed.

Lemma grows_set_current_account (account : string) (c : config) :
  grows c (set_current_account account c).
Proof.
  repeat split; intros a; exists [], [].
  change (template_of (set_current_account account c) a) with (template_of c a).
  rewrite !app_nil_r; repeat split; now destruct (outputs_enabled c).
Qed.

Lemma grows_registered (c : config) (r : resource) (o : Output) :
  grows c (registered c r [o]).
Proof.
  repeat split; intros account.
  destruct (decide (account = current_account c)) as [->|Hne].
  - rewrite registered_template_of; cbn [resources outputs].
    eexists _, _; repeat split.
    destruct (outputs_enabled c); reflexivity.
  - rewrite registered_template_of_other by exact Hne.
    exists [], []; rewrite !app_nil_r; repeat split.
    now destruct (outputs_enabled c).
Qed.

Lemma run_invariant_refl (c : config) : run_invariant c c.
Proof. split; [apply grows_refl | intros account _; reflexivity]. Qed.

Lemma run_invariant_trans (c1 c2 c3 : config) :
  run_invariant c1 c2 -> run_invariant c2 c3 -> run_invariant c1 c3.
Proof.
  intros [Hg Hs] [Hg' Hs']; split; [now apply (grows_trans c1 c2 c3)|].
  intros account Hno.
  destruct Hg as (_ & Ha & _).
  rewrite Hs' by (now rewrite Ha); now apply Hs.
Qed.

Lemma run_invariant_registered (c : config) (r : resource) (o : Output) :
  has_key (current_account c) (account_map_ids c) = true ->
  run_invariant c (registered c r [o]).
Proof.
  intros Hcur; split; [apply grows_registered|].
  intros account Hno; apply registered_other_account.
  intros ->; congruence.
Qed.

(** A step in a configured account keeps the invariants. *)
Lemma step_result_invariant (account : string) (c c' : config) :
  has_key account (account_map_ids c) = true ->
  step_result account c c' -> run_invariant c c'.
Proof.
  intros Hkey Hstep.
  assert (H0 : run_invariant c (set_current_account account c))
    by (split; [apply grows_set_current_account | intros a _; reflexivity]).
  destruct Hstep as [|r o|r r' o o'].
  - exact H0.
  - apply (run_invariant_trans _ _ _ H0).
    now apply run_invariant_registered.
  - apply (run_invariant_trans _ _ _ H0).
    apply (run_invariant_trans _ (registered (set_current_account account c) r [o])).
    + now apply run_invariant_registered.
    + now apply run_invariant_registered.
Qed.

Lemma policy_account_step_result
      (render : config -> string -> policy_model -> result json)
      (policy_name : string) (model : policy_model) (account : string) (c : config) :
  step_result account c (snd (policy_account_step render policy_name model account c)).
Proof.
  pose proof (policy_account_step_registered render policy_name model account c) as H.
  cbn zeta in H; rewrite H.
  destruct (policy_document_of render policy_name model _); cbn [snd];
    [constructor|].
  destruct (library_check _ _); cbn [snd]; constructor.
Qed.

Lemma role_account_step_result
      (role_name : string) (model : role_model) (account : string) (c : config) :
  step_result account c (snd (role_account_step role_name model account c)).
Proof.
  pose proof (role_account_step_registered role_name model account c) as H.
  cbn zeta in H; rewrite H.
  destruct (role_kw_args _ role_name model _); cbn [snd]; [constructor|].
  destruct (library_check _ _); cbn [snd]; [constructor|].
  destruct (mem "ec2.amazonaws.com" (member_list (trusts model))); cbn [snd];
    [|constructor].
  destruct (library_check _ _); cbn [snd]; constructor.
Qed.

Lemma group_account_step_result
      (group_name : string) (model : group_model) (account : string) (c : config) :
  step_result account c (snd (group_account_step group_name model account c)).
Proof.
  unfold group_account_step.
  unfold mbind at 1, modify, ok; cbn beta iota.
  unfold mbind at 1, get, ok; cbn beta iota.
  rewrite add_group_registered.
  destruct (group_kw_args _ group_name model _); cbn [snd]; [constructor|].
  destruct (library_check _ _); cbn [snd]; constructor.
Qed.

Lemma user_account_step_result
      (user_name : string) (model : user_model) (account : string) (c : config) :
  step_result account c (snd (user_account_step user_name model account c)).
Proof.
  unfold user_account_step.
  unfold mbind at 1, modify, ok; cbn beta iota.
  unfold mbind at 1, get, ok; cbn beta iota.
  rewrite add_user_registered.
  destruct (user_kw_args _ user_name model _); cbn [snd]; [constructor|].
  destruct (library_check _ _); cbn [snd]; constructor.
Qed.

Lemma bind_invariant {A B : Type} (m : M A) (k : A -> M B) (c : config) :
  run_invariant c (snd (m c)) ->
  (forall x, fst (m c) = ok x -> run_invariant (snd (m c)) (snd (k x (snd (m c))))) ->
  run_invariant c (snd (mbind m k c)).
Proof.
  intros Hm Hk; unfold mbind.
  destruct (m c) as [[e|x] c'] eqn:Hmc; cbn [fst snd] in *; [exact Hm|].
  apply (run_invariant_trans _ c'); [exact Hm | now apply Hk].
Qed.

(** A loop over configured accounts keeps the invariants, whether it runs
    to its end or stops at an error. *)
Lemma for_each_accounts_invariant (body : string -> M unit) (accounts : list string) :
  (forall account c,
      has_key account (account_map_ids c) = true ->
      run_invariant c (snd (body account c))) ->
  forall c,
    Forall (fun account => has_key account (account_map_ids c) = true) accounts ->
    run_invariant c (snd (for_each accounts body c)).
Proof.
  intros Hbody; induction accounts as [|account accounts IH]; intros c Hall;
    cbn [for_each].
  - apply run_invariant_refl.
  - inversion Hall as [|? ? Hkey Hrest]; subst.
    apply bind_invariant; [now apply Hbody|].
    intros _ _; apply IH.
    destruct (Hbody account c Hkey) as [(_ & Hmap & _) _].
    now rewrite Hmap.
Qed.

Lemma for_each_entities_invariant {E : Type} (body : E -> M unit) (entities : list E) :
  (forall entity c, run_invariant c (snd (body entity c))) ->
  forall c, run_invariant c (snd (for_each entities body c)).
Proof.
  intros Hbody; induction entities as [|entity entities IH]; intros c;
    cbn [for_each].
  - apply run_invariant_refl.
  - apply bind_invariant; [apply Hbody|intros _ _; apply IH].
Qed.

(** The fan-out of a section keeps the invariants when the step of its kind
    does so in every configured account. *)
Lemma fan_out_invariant {Model : Type} (section : option (list (string * Model)))
      (in_accounts : Model -> option (list string))
      (step : string -> Model -> string -> M unit) :
  (forall name model account c,
      has_key account (account_map_ids c) = true ->
      run_invariant c (snd (step name model account c))) ->
  forall c, run_invariant c (snd (fan_out section in_accounts step c)).
Proof.
  intros Hstep c; unfold fan_out.
  destruct section as [entities|]; [|apply run_invariant_refl].
  apply for_each_entities_invariant; intros entity c0.
  apply bind_invariant; [apply run_invariant_refl|].
  intros c1 Hc1; injection Hc1 as <-; cbn [get snd].
  apply for_each_accounts_invariant; [intros; now apply Hstep|].
  apply search_accounts_configured.
Qed.

Lemma build_invariant
      (render : config -> string -> policy_model -> result json) (c : config) :
  run_invariant c (snd (build render c)).
Proof.
  unfold build.
  apply bind_invariant; [apply run_invariant_refl|].
  intros c0 Hc0; injection Hc0 as <-; cbn [get snd].
  apply bind_invariant.
  { apply fan_out_invariant; intros name model account c1 Hkey.
    apply (step_result_invariant account); [exact Hkey|].
    apply policy_account_step_result. }
  intros _ _; apply bind_invariant.
  { apply fan_out_invariant; intros name model account c1 Hkey.
    apply (step_result_invariant account); [exact Hkey|].
    apply role_account_step_result. }
  intros _ _; apply bind_invariant.
  { apply fan_out_invariant; intros name model account c1 Hkey.
    apply (step_result_invariant account); [exact Hkey|].
    apply group_account_step_result. }
  intros _ _.
  apply fan_out_invariant; intros name model account c1 Hkey.
  apply (step_result_invariant account); [exact Hkey|].
  apply user_account_step_result.
Qed.


(** X16.  The run never creates or changes the document of an account that
    is not among the configured accounts, whatever names the contexts of
    the entities hold and whatever account was current at the start. *)
Theorem build_spares_unconfigured_accounts :
  forall (render : config -> string -> policy_model -> result json) (c : config)
         (account : string),
    has_key account (account_map_ids c) = false ->
    template (snd (build render c)) !! account = template c !! account.
Proof.
  intros render c; exact (proj2 (build_invariant render c)).
Qed.

Lemma build_spares_unconfigured_accounts_witness :
  template (snd (build no_files full_config)) !! "staging"
  = template full_config !! "staging".
Proof.
  apply (build_spares_unconfigured_accounts no_files full_config "staging").
  reflexivity.
Defined.

Lemma step_result_other_account (account other : string) (c c' : config) :
  other <> account ->
  step_result account c c' -> template c' !! other = template c !! other.
Proof.
  intros Hne [|r o|r r' o o'].
  - reflexivity.
  - now rewrite registered_other_account.
  - now rewrite !registered_other_account.
Qed.

Lemma for_each_steps_frame (body : string -> M unit) (accounts : list string) :
  (forall account c, step_result account c (snd (body account c))) ->
  forall (c : config) (other : string),
    ~ In other accounts ->
    template (snd (for_each accounts body c)) !! other = template c !! other.
Proof.
  intros Hbody; induction accounts as [|account accounts IH]; intros c other Hnot;
    cbn [for_each].
  - reflexivity.
  - assert (Hne : other <> account) by (intros ->; apply Hnot; now left).
    assert (Hrest : ~ In other accounts) by (intros Hin; apply Hnot; now right).
    pose proof (step_result_other_account account other c _ Hne (Hbody account c))
      as Hstep.
    unfold mbind; destruct (body account c) as [[e|u] c'] eqn:Hb; cbn [snd] in *.
    + exact Hstep.
    + now rewrite IH.
Qed.

(** X17.  The loop that instantiates one entity in a list of accounts, for
    a policy, a role, a group or a user alike, changes the documents of the
    accounts of that list only, whether it runs to its end or stops at an
    error: the document of an account outside the list is neither created
    nor changed. *)
Theorem entity_touches_its_accounts_only :
  forall (render : config -> string -> policy_model -> result json)
         (name : string) (accounts : list string) (c : config) (other : string),
    ~ In other accounts ->
    (forall model : policy_model,
        template (snd (for_each accounts (policy_account_step render name model) c))
          !! other = template c !! other)
    /\ (forall model : role_model,
           template (snd (for_each accounts (role_account_step name model) c))
             !! other = template c !! other)
    /\ (forall model : group_model,
           template (snd (for_each accounts (group_account_step name model) c))
             !! other = template c !! other)
    /\ (forall model : user_model,
           template (snd (for_each accounts (user_account_step name model) c))
             !! other = template c !! other).
Proof.
  intros render name accounts c other Hnot; repeat split; intros model;
    apply for_each_steps_frame; trivial; intros account c0.
  - apply policy_account_step_result.
  - apply role_account_step_result.
  - apply group_account_step_result.
  - apply user_account_step_result.
Qed.

Lemma entity_touches_its_accounts_only_witness :
  (forall model : policy_model,
      template (snd (for_each ["dev"] (policy_account_step empty_object "Admin" model)
                              saml_config))
        !! "prod" = template saml_config !! "prod")
  /\ (forall model : role_model,
         template (snd (for_each ["dev"] (role_account_step "Admin" model) saml_config))
           !! "prod" = template saml_config !! "prod")
  /\ (forall model : group_model,
         template (snd (for_each ["dev"] (group_account_step "Admin" model) saml_config))
           !! "prod" = template saml_config !! "prod")
  /\ (forall model : user_model,
         template (snd (for_each ["dev"] (user_account_step "Admin" model) saml_config))
           !! "prod" = template saml_config !! "prod").
Proof.
  apply (entity_touches_its_accounts_only empty_object "Admin" ["dev"] saml_config "prod").
  intros [H|[]]; discriminate H.
Defined.

(** The run on a configuration with every section: the group that names an
    account that is not configured is instantiated in the configured one
    only. *)
Example build_full_config :
  fst (build no_files full_config) = ok tt
  /\ List.map resource_title
       (resources (template_of (snd (build no_files full_config)) "prod"))
     = ["ReadOnly"; "AssumeAdmin"; "AdminRole"; "AdminInstanceProfile"; "aliceUser"]
  /\ List.map resource_title
       (resources (template_of (snd (build no_files full_config)) "dev"))
     = ["ReadOnly"; "AssumeAdmin"; "AdminRole"; "AdminInstanceProfile";
        "DevelopersGroup"; "aliceUser"]
  /\ template (snd (build no_files full_config)) !! "staging" = None.
Proof. repeat split. Qed.
